(** * led-meter: the LEDP servers

    A shallow embedding of the three LEDP servers of the repository
    ([servers/sysfs-leds.c], the Wiimote server and the AirOS server) and
    of the common server loop of [server.h], with the properties of the
    specification stated and settled on it.

    Conventions.
    - A [uint32_t] is a [Z] in [0, 2^32); an [int] is a [Z] in
      [-2^31, 2^31).  Conversions between the two wrap around, as the
      compilers the servers are built with do.
    - A byte of a datagram is a [Byte.byte].
    - Text written to files is a [string].
    - The environment (file descriptors, the Wiimote, stderr) is a
      [world]: the return values the next system calls will produce, and
      the trace of what the process did so far, newest event first. *)

From Stdlib Require Import ZArith List Bool Lia String Ascii.
From Stdlib Require Import Strings.Byte DecimalString.
From coqutil Require Import Z.bitblast.
Import ListNotations.

Local Open Scope string_scope.
Local Open Scope Z_scope.

(* ------------------------------------------------------------------ *)
(** ** Machine integers *)

Module Int.

(** Value of an expression converted to [uint32_t]. *)
Definition to_uint32 (z : Z) : Z := z mod 2 ^ 32.

(** Value of an expression converted to [int] (two's complement). *)
Definition to_int (z : Z) : Z :=
  let u := z mod 2 ^ 32 in
  if u <? 2 ^ 31 then u else u - 2 ^ 32.

(** [~x] on a [uint32_t]. *)
Definition not32 (x : Z) : Z := to_uint32 (Z.lnot x).

(** [1 << i], the left operand being an [int]. *)
Definition bit (i : Z) : Z := to_int (Z.shiftl 1 i).

(** [x & (1 << i)] taken as a truth value, [x] being a [uint32_t]: the
    [int] operand is converted to the unsigned type first. *)
Definition test_u32 (x i : Z) : bool :=
  negb (Z.land x (to_uint32 (bit i)) =? 0).

(** [x & (1 << i)] taken as a truth value, [x] being an [int]. *)
Definition test_int (x i : Z) : bool :=
  negb (Z.land x (bit i) =? 0).

End Int.

(* ------------------------------------------------------------------ *)
(** ** The environment *)

(** What the process did, as the outside sees it. *)
Inductive event : Type :=
| EvWrite (fd : Z) (data : string)   (* bytes a [write] call transferred *)
| EvSetLed (flags : Z)               (* a LED report the Wiimote took *)
| EvSetLedFailed (flags : Z)         (* a LED report that was not delivered *)
| EvStderr (msg : string)
| EvStdout (msg : string).

(** [returns] holds the values the next calls to [write] and
    [cwiid_set_led] will return, in call order; once it is exhausted every
    call succeeds.  [trace] is newest first. *)
Record world : Type := mkWorld {
  returns : list Z;
  trace : list event
}.

(** A handler returns, dies on a failed [assert], or leaves what C
    defines (a store outside an array). *)
Inductive result (A : Type) : Type :=
| Returned (a : A) (w : world)
| Aborted (w : world)
| Undefined (w : world).
Arguments Returned {A} a w.
Arguments Aborted {A} w.
Arguments Undefined {A} w.

Definition io (A : Type) : Type := world -> result A.

Definition ret {A} (a : A) : io A := fun w => Returned a w.

Definition bind {A B} (m : io A) (k : A -> io B) : io B :=
  fun w =>
    match m w with
    | Returned a w' => k a w'
    | Aborted w' => Aborted w'
    | Undefined w' => Undefined w'
    end.

Notation "x <- m ;; k" := (bind m (fun x => k))
  (at level 61, m at next level, right associativity).
Notation "m ;;; k" := (bind m (fun _ => k))
  (at level 61, right associativity).

Definition emit (e : event) : io unit :=
  fun w => Returned tt (mkWorld (returns w) (e :: trace w)).

(** [assert(c)]. *)
Definition assert (c : bool) : io unit :=
  fun w => if c then Returned tt w else Aborted w.

(** [fprintf(stderr, msg)]. *)
Definition eprint (msg : string) : io unit := emit (EvStderr msg).

(** [write(fd, buf, count)].  The call transfers the first [count] bytes
    of the buffer, or fewer, and returns how many; or it transfers nothing
    and returns -1. *)
Definition write (fd : Z) (buf : string) (count : Z) : io Z :=
  fun w =>
    match returns w with
    | [] =>
        Returned count
          (mkWorld [] (EvWrite fd (substring 0 (Z.to_nat count) buf) :: trace w))
    | r :: rs =>
        if (0 <=? r) && (r <=? count)
        then Returned r
               (mkWorld rs (EvWrite fd (substring 0 (Z.to_nat r) buf) :: trace w))
        else Returned (-1) (mkWorld rs (trace w))
    end.

(** The world after an action, whether it returned or not. *)
Definition world_of {A} (r : result A) : world :=
  match r with
  | Returned _ w => w
  | Aborted w => w
  | Undefined w => w
  end.

(** The newline character and decimal text, as [printf] produces them. *)
Definition nl : string := String (ascii_of_nat 10) EmptyString.

(** [%d] and, for values that are not negative, [%u]. *)
Definition decimal (z : Z) : string := NilZero.string_of_int (Z.to_int z).

(** The device side of a file descriptor: the text of the last [write]
    it took, if any. *)
Fixpoint last_write (fd : Z) (tr : list event) : option string :=
  match tr with
  | [] => None
  | EvWrite fd' data :: older =>
      if fd' =? fd then Some data else last_write fd older
  | _ :: older => last_write fd older
  end.

(** The text a [sprintf] call stores, and the length it returns. *)
Definition sprintf (text : string) : string * Z :=
  (text, Z.of_nat (String.length text)).

(** The device side of the Wiimote: the last LED report it took. *)
Fixpoint last_report (tr : list event) : option Z :=
  match tr with
  | [] => None
  | EvSetLed flags :: _ => Some flags
  | _ :: older => last_report older
  end.

(* ------------------------------------------------------------------ *)
(** ** [server.h]: the packet and the server loop *)

Module Server.

Definition DEFAULT_PORT : Z := 5021.
Definition PROTOCOL_VERSION : Z := 1.

Record ledp_packet : Type := mkPacket {
  protocol_version : Z;   (* uint8_t *)
  mask : Z;               (* uint32_t *)
  values : Z              (* uint32_t *)
}.

(** Byte order of the machine the server runs on. *)
Inductive endianness : Type := LittleEndian | BigEndian.

Definition byte_val (b : byte) : Z := Z.of_N (Byte.to_N b).

(** [received[k]] as an unsigned byte; bytes the receive call did not
    fill read as 0 here (the loop never looks at them). *)
Definition byte_at (received : list byte) (k : nat) : Z :=
  byte_val (nth k received x00).

(** [*(uint32_t * )(received + off)]: four bytes read in host order. *)
Definition load_uint32 (e : endianness) (received : list byte) (off : nat) : Z :=
  let b0 := byte_at received off in
  let b1 := byte_at received (off + 1) in
  let b2 := byte_at received (off + 2) in
  let b3 := byte_at received (off + 3) in
  match e with
  | LittleEndian =>
      Z.lor (Z.lor b0 (Z.shiftl b1 8)) (Z.lor (Z.shiftl b2 16) (Z.shiftl b3 24))
  | BigEndian =>
      Z.lor (Z.lor (Z.shiftl b0 24) (Z.shiftl b1 16)) (Z.lor (Z.shiftl b2 8) b3)
  end.

(** [htonl]: the identity on a big-endian host, a byte swap otherwise. *)
Definition htonl (e : endianness) (x : Z) : Z :=
  match e with
  | BigEndian => x
  | LittleEndian =>
      Z.lor
        (Z.lor (Z.shiftr (Z.land x 4278190080) 24)
               (Z.shiftr (Z.land x 16711680) 8))
        (Z.lor (Z.shiftl (Z.land x 65280) 8)
               (Z.shiftl (Z.land x 255) 24))
  end.

(** What the socket hands to one [recv] call. *)
Inductive arrival : Type :=
| Datagram (payload : list byte)
| RecvError.

(** [recv(sock, buf, len, 0)] on a datagram socket: the first [len] bytes
    of the datagram are copied, the rest of it is dropped, and the number
    of bytes copied is returned; -1 on error. *)
Definition recv (a : arrival) (len : nat) : Z * list byte :=
  match a with
  | Datagram payload =>
      let received := firstn len payload in
      (Z.of_nat (List.length received), received)
  | RecvError => (-1, [])
  end.

(** One turn of the loop of [start_ledp_server] up to the call of the
    handler: [None] is [continue]. *)
Definition decode (e : endianness) (a : arrival) : option ledp_packet :=
  let '(n, received) := recv a 9 in
  if negb (n =? 9) then None
  else
    let version := byte_at received 0 in
    if negb (version =? PROTOCOL_VERSION) then None
    else
      Some (mkPacket version
                     (htonl e (load_uint32 e received 1))
                     (htonl e (load_uint32 e received 5))).

(** Four bytes as an unsigned integer in network byte order (README,
    "The LEDP protocol"). *)
Definition be32 (b0 b1 b2 b3 : Z) : Z :=
  b0 * 2 ^ 24 + b1 * 2 ^ 16 + b2 * 2 ^ 8 + b3.

(** The arrivals the specification calls rejected, as far as the loop
    can tell: a failed receive, a datagram shorter than 9 bytes, a first
    byte other than the protocol version. *)
Definition dropped (a : arrival) : Prop :=
  match a with
  | RecvError => True
  | Datagram payload =>
      (List.length payload < 9)%nat \/ byte_at payload 0 <> PROTOCOL_VERSION
  end.

(** The packets a list of arrivals decodes to, in arrival order. *)
Fixpoint decoded (e : endianness) (arrivals : list arrival) : list ledp_packet :=
  match arrivals with
  | [] => []
  | a :: rest =>
      match decode e a with
      | Some packet => packet :: decoded e rest
      | None => decoded e rest
      end
  end.

Section Loop.
Variable e : endianness.
Variable opaque_t : Type.
Variable handler : opaque_t -> ledp_packet -> io opaque_t.

(** The [while (1)] loop of [start_ledp_server] over the arrivals of a
    finite stretch of time.  The handler updates [*opaque] in place;
    here it returns the new contents. *)
Fixpoint serve (arrivals : list arrival) (opaque : opaque_t) : io opaque_t :=
  match arrivals with
  | [] => ret opaque
  | a :: rest =>
      match decode e a with
      | None => serve rest opaque
      | Some packet =>
          opaque' <- handler opaque packet ;;
          serve rest opaque'
      end
  end.

(** The handler called on a list of packets, one after the other. *)
Fixpoint handle_all (packets : list ledp_packet) (opaque : opaque_t)
    : io opaque_t :=
  match packets with
  | [] => ret opaque
  | packet :: rest =>
      opaque' <- handler opaque packet ;;
      handle_all rest opaque'
  end.

(** [start_ledp_server]: [sock] is what [__initialize_socket] returned.
    [Some 1] is the early return; [None] says the loop is still
    running after [arrivals]. *)
Definition start_ledp_server (sock : Z) (arrivals : list arrival)
    (opaque : opaque_t) : io (option Z * opaque_t) :=
  if sock =? -1 then ret (Some 1, opaque)
  else
    opaque' <- serve arrivals opaque ;;
    ret (None, opaque').
End Loop.

Arguments serve e {opaque_t} handler arrivals opaque.
Arguments handle_all {opaque_t} handler packets opaque.
Arguments start_ledp_server e {opaque_t} handler sock arrivals opaque.


Definition DEFAULT_PORT_STRING : string := "5021".

(** *** [__initialize_socket]

    What the system calls do on one of the addresses [getaddrinfo]
    lists: the return values of [socket], of [bind] on that socket and of
    [close] on it. *)
Record addrinfo : Type := mkAddr {
  ai_socket : Z;
  ai_bind : Z;
  ai_close : Z
}.

(** The [for (a = addresses; a; a = a->ai_next)] loop.  [fds] is the
    table of open descriptors, threaded through the calls; the result is
    [Some sock] when the loop is left by [break]. *)
Fixpoint bind_loop (addresses : list addrinfo) (fds : list Z)
    : io (option Z * list Z) :=
  match addresses with
  | [] => ret (None, fds)
  | a :: rest =>
      let sock := ai_socket a in
      if sock =? -1 then bind_loop rest fds
      else
        let fds1 := sock :: fds in
        if ai_bind a =? 0 then ret (Some sock, fds1)
        else
          let status := ai_close a in
          let fds2 := if status =? 0 then remove Z.eq_dec sock fds1 else fds1 in
          assert (status =? 0) ;;;
          bind_loop rest fds2
  end.

(** [getaddrinfo port] is [None] when [getaddrinfo] returns an error. *)
Definition __initialize_socket (getaddrinfo : string -> option (list addrinfo))
    (port : string) (fds : list Z) : io (Z * list Z) :=
  match getaddrinfo port with
  | None =>
      eprint ("Couldn't get address to bind to." ++ nl) ;;; ret (-1, fds)
  | Some addresses =>
      r <- bind_loop addresses fds ;;
      match fst r with
      | None => eprint ("Couldn't bind socket" ++ nl) ;;; ret (-1, snd r)
      | Some sock => ret (sock, snd r)
      end
  end.

(** An address on which [socket] and [bind] both succeed. *)
Definition bindable (a : addrinfo) : bool :=
  negb (ai_socket a =? -1) && (ai_bind a =? 0).

(** The last packet of a list that addresses LED [i] and the state it
    asks for, if any packet does. *)
Fixpoint last_addressed (i : Z) (packets : list ledp_packet) : option bool :=
  match packets with
  | [] => None
  | packet :: rest =>
      match last_addressed i rest with
      | Some b => Some b
      | None =>
          if Z.testbit (mask packet) i
          then Some (Z.testbit (values packet) i)
          else None
      end
  end.

End Server.

(* ------------------------------------------------------------------ *)
(** ** The Wiimote server *)

Module Wiimote.
Import Server.

Record server_data : Type := mkData {
  wiimote : Z;   (* the handle [cwiid_open] returned *)
  leds : Z       (* int *)
}.

(** [cwiid_set_led]: 0 when the report was delivered. *)
Definition cwiid_set_led (handle : Z) (flags : Z) : io Z :=
  fun w =>
    match returns w with
    | [] => Returned 0 (mkWorld [] (EvSetLed flags :: trace w))
    | r :: rs =>
        if r =? 0
        then Returned 0 (mkWorld rs (EvSetLed flags :: trace w))
        else Returned r (mkWorld rs (EvSetLedFailed flags :: trace w))
    end.

Section Flags.
(** The four constants of [cwiid.h], which is not part of the
    repository: they are parameters of the model. *)
Variables CWIID_LED1_ON CWIID_LED2_ON CWIID_LED3_ON CWIID_LED4_ON : Z.

Definition led_flags : list Z :=
  [CWIID_LED1_ON; CWIID_LED2_ON; CWIID_LED3_ON; CWIID_LED4_ON].

(** The [for (i = 0; i < 4; i++)] loop. *)
Definition combined_flags (leds : Z) : Z :=
  fold_left
    (fun flags i =>
       if Int.test_int leds (Z.of_nat i)
       then Z.lor flags (nth i led_flags 0)
       else flags)
    (seq 0 4) 0.

(** The two assignments to [data->leds]. *)
Definition update_leds (leds : Z) (packet : ledp_packet) : Z :=
  let leds1 :=
    Int.to_int (Z.land (Int.to_uint32 leds) (Int.not32 (mask packet))) in
  Int.to_int (Z.lor (Int.to_uint32 leds1) (values packet)).

Definition handle_message (data : server_data) (packet : ledp_packet)
    : io server_data :=
  let leds' := update_leds (leds data) packet in
  let flags := combined_flags leds' in
  status <- cwiid_set_led (wiimote data) flags ;;
  (if negb (status =? 0)
   then eprint ("Couldn't send command to Wiimote" ++ nl)
   else ret tt) ;;;
  ret (mkData (wiimote data) leds').

(** The flags of the shadow register after each packet of a list, the
    register holding [leds] before the first. *)
Fixpoint flags_along (leds : Z) (packets : list ledp_packet) : list Z :=
  match packets with
  | [] => []
  | packet :: rest =>
      let leds' := update_leds leds packet in
      combined_flags leds' :: flags_along leds' rest
  end.
End Flags.

(** Entry [i] of the shadow register. *)
Definition shadow (data : server_data) (i : Z) : bool := Z.testbit (leds data) i.

(** Whether a LED report lights the LED whose flag is [flag]. *)
Definition lit (flags flag : Z) : bool := negb (Z.land flags flag =? 0).

(** The four flags are bits of their own: none is empty and no two
    overlap. *)
Definition separate_flags (f1 f2 f3 f4 : Z) : bool :=
  negb (f1 =? 0) && negb (f2 =? 0) && negb (f3 =? 0) && negb (f4 =? 0)
  && (Z.land f1 f2 =? 0) && (Z.land f1 f3 =? 0) && (Z.land f1 f4 =? 0)
  && (Z.land f2 f3 =? 0) && (Z.land f2 f4 =? 0) && (Z.land f3 f4 =? 0).

(** The flags handed to [cwiid_set_led] along a trace, oldest first,
    delivered or not. *)
Fixpoint reports (tr : list event) : list Z :=
  match tr with
  | [] => []
  | EvSetLed flags :: older => (reports older ++ [flags])%list
  | EvSetLedFailed flags :: older => (reports older ++ [flags])%list
  | _ :: older => reports older
  end.

(** Two packets with the same bits 0-3 in [mask] and in [values]. *)
Definition same_low_bits (p q : ledp_packet) : Prop :=
  Z.land (mask p) 15 = Z.land (mask q) 15
  /\ Z.land (values p) 15 = Z.land (values q) 15.


(** *** [print_help] and [main]

    What [main] uses of BlueZ, libcwiid and the C library, none of which
    is part of the repository.  A Bluetooth address is a [Z]. *)
Record platform : Type := mkPlatform {
  BDADDR_ANY : Z;
  (* [str2ba(text, &addr)]: [None] when it does not return 0 *)
  str2ba : string -> option Z;
  atoi : string -> Z;
  (* [cwiid_open(&addr, 0)]: the handle and the address it leaves in
     [addr], or [None] for NULL *)
  cwiid_open : Z -> option (Z * Z);
  (* [ba2str(&addr, addr_string)]: its return value and the text *)
  ba2str : Z -> Z * string
}.

Definition usage (basename : string) : string :=
  "Usage: " ++ basename ++ " [<bdaddr> [<port>]]" ++ nl.

Definition print_help (basename : string) : io Z :=
  eprint (usage basename) ;;;
  ret 1.

Section Main.
Variable e : endianness.
Variables CWIID_LED1_ON CWIID_LED2_ON CWIID_LED3_ON CWIID_LED4_ON : Z.
Variable pf : platform.
(** What [__initialize_socket] returns for a port. *)
Variable bound : string -> Z.

(** [main]; [argc] is the length of [argv].  [Some s] is the exit
    status, [None] says the process is still serving after
    [arrivals]. *)
Definition main (argv : list string) (arrivals : list arrival)
    : io (option Z) :=
  let argc := Z.of_nat (List.length argv) in
  let arg := fun k => nth k argv EmptyString in
  if 3 <? argc then s <- print_help (arg 0%nat) ;; ret (Some s)
  else
    match (if 2 <=? argc then str2ba pf (arg 1%nat) else Some (BDADDR_ANY pf)) with
    | None => s <- print_help (arg 0%nat) ;; ret (Some s)
    | Some addr =>
        let t := atoi pf (arg 2%nat) in
        if (3 <=? argc) && ((t <=? 0) || (65536 <=? t))
        then s <- print_help (arg 0%nat) ;; ret (Some s)
        else
          let port := if 3 <=? argc then arg 2%nat else DEFAULT_PORT_STRING in
          emit (EvStdout ("Connecting to Wiimote..." ++ nl)) ;;;
          match cwiid_open pf addr with
          | None =>
              eprint ("Couldn't connect to your beloved Wiimote. I'm sorry."
                        ++ nl) ;;;
              ret (Some 1)
          | Some (handle, addr') =>
              let '(status, addr_string) := ba2str pf addr' in
              assert (negb (status =? 0)) ;;;
              emit (EvStdout ("Connected to " ++ addr_string ++ nl)) ;;;
              s <- start_ledp_server e
                     (handle_message CWIID_LED1_ON CWIID_LED2_ON
                        CWIID_LED3_ON CWIID_LED4_ON)
                     (bound port) arrivals (mkData handle 0) ;;
              match fst s with
              | Some _ => ret (Some 1)
              | None => ret None
              end
          end
    end.
End Main.

(** The arguments [main] refuses. *)
Definition bad_arguments (pf : platform) (argv : list string) : Prop :=
  (3 < List.length argv)%nat
  \/ ((2 <= List.length argv)%nat
      /\ str2ba pf (nth 1 argv EmptyString) = None)
  \/ ((3 <= List.length argv)%nat
      /\ (atoi pf (nth 2 argv EmptyString) <= 0
          \/ 65536 <= atoi pf (nth 2 argv EmptyString))).

(** The port [main] serves on. *)
Definition port_of (argv : list string) : string :=
  if (3 <=? List.length argv)%nat then nth 2 argv EmptyString
  else DEFAULT_PORT_STRING.

(** A platform for the examples: every address parses to 1, the port is
    5021, the Wiimote answers with handle 7. *)
Definition paired : platform :=
  mkPlatform 0 (fun _ => Some 1) (fun _ => 5021) (fun addr => Some (7, 1))
    (fun _ => (17, "00:1F:32:00:00:01")).

End Wiimote.

(* ------------------------------------------------------------------ *)
(** ** The AirOS server *)

Module Airos.
Import Server.

Record server_data : Type := mkData {
  control_fd : Z
}.

(** [sizeof commands]. *)
Definition commands_size : Z := 7 * 32.

(** What [sprintf(..., "%u %d %d\n", i, value, value)] produces. *)
Definition command_line (i value : Z) : string :=
  decimal i ++ " " ++ decimal value ++ " " ++ decimal value ++ nl.

(** The [for (i = 0; i < 32; i++)] loop, [n] turns from [i] on.
    [commands] is the text stored in the buffer so far.  [sprintf] stores
    the line and a NUL at [commands + commands_length]; [None] says it
    would store past the end of [commands]. *)
Fixpoint prepare_commands (packet : ledp_packet) (n : nat) (i : Z)
    (commands : string) (commands_length : Z) : option (string * Z) :=
  match n with
  | O => Some (commands, commands_length)
  | S n' =>
      if negb (Int.test_u32 (mask packet) i)
      then prepare_commands packet n' (i + 1) commands commands_length
      else
        let value := if Int.test_u32 (values packet) i then 1 else 0 in
        let '(line, printed) := sprintf (command_line i value) in
        if commands_length + printed + 1 <=? commands_size
        then
          prepare_commands packet n' (i + 1)
            (substring 0 (Z.to_nat commands_length) commands ++ line)
            (commands_length + printed)
        else None
  end.

Definition handle_message (data : server_data) (packet : ledp_packet)
    : io server_data :=
  match prepare_commands packet 32 0 EmptyString 0 with
  | None => fun w => Undefined w
  | Some (commands, commands_length) =>
      written <- write (control_fd data) commands commands_length ;;
      assert (written =? commands_length) ;;;
      ret data
  end.

(** The logical indices [i], [i + 1], ..., [n] of them. *)
Fixpoint indices (i : Z) (n : nat) : list Z :=
  match n with
  | O => []
  | S n' => i :: indices (i + 1) n'
  end.

Definition join (lines : list string) : string :=
  fold_right append EmptyString lines.

(** The longest line an index can get: [sizeof "9 1 1\n" - 1] for one
    digit, [sizeof "31 1 1\n" - 1] for two. *)
Definition line_budget (i : Z) : Z := if i <? 10 then 6 else 7.

Definition budget (i : Z) (n : nat) : Z :=
  fold_right Z.add 0 (map line_budget (indices i n)).

(** The lines of a command as the specification words them: one line
    per addressed index of 0..31, in increasing order, carrying the
    wanted bit twice. *)
Definition lines_from (packet : ledp_packet) (i : Z) (n : nat) : list string :=
  map (fun i => command_line i (if Z.testbit (values packet) i then 1 else 0))
      (filter (fun i => Z.testbit (mask packet) i) (indices i n)).

Definition addressed_lines (packet : ledp_packet) : list string :=
  lines_from packet 0 32.

(** *** The control file, as the header comment describes it

    The file reads lines, one at a time, of three integers separated by
    spaces: the pin, and two booleans (direction and level, in an order
    the author does not know). *)

(** Per pin, the two booleans of the last line that named it. *)
Definition pins : Type := Z -> option (bool * bool).

Definition run_command (fields : list Z) (p : pins) : pins :=
  match fields with
  | [pin; a; b] =>
      fun q => if q =? pin then Some (negb (a =? 0), negb (b =? 0)) else p q
  | _ => p
  end.

Definition push_field (cur : option Z) (fields : list Z) : list Z :=
  match cur with
  | Some z => z :: fields
  | None => fields
  end.

Definition digit_of (c : ascii) : option Z :=
  let n := Z.of_nat (nat_of_ascii c) in
  if (48 <=? n) && (n <=? 57) then Some (n - 48) else None.

(** [fields] holds the integers of the current line read so far, last
    first, and [cur] the integer being read. *)
Fixpoint system_led (text : string) (fields : list Z) (cur : option Z)
    (p : pins) : pins :=
  match text with
  | EmptyString => p
  | String c rest =>
      if Ascii.eqb c (ascii_of_nat 10)
      then system_led rest [] None (run_command (rev (push_field cur fields)) p)
      else if Ascii.eqb c " "%char
      then system_led rest (push_field cur fields) None p
      else
        match digit_of c with
        | Some d =>
            system_led rest fields
              (Some (10 * match cur with Some z => z | None => 0 end + d)) p
        | None => system_led rest fields cur p
        end
  end.

(** The pins after the writes of a trace; every [write] call hands its
    text to the control file, which reads it from the start of a line. *)
Fixpoint pins_of (fd : Z) (tr : list event) : pins :=
  match tr with
  | [] => fun _ => None
  | EvWrite fd' data :: older =>
      if fd' =? fd
      then system_led data [] None (pins_of fd older)
      else pins_of fd older
  | _ :: older => pins_of fd older
  end.


(** [main]: [control] is what [open("/proc/gpio/system_led", O_WRONLY)]
    returned and [sock] what [__initialize_socket] returned.  [Some s] is
    the exit status, [None] says the process is still serving after
    [arrivals]. *)
Definition main (e : endianness) (control : Z) (sock : Z)
    (arrivals : list arrival) : io (option Z) :=
  assert (negb (control =? -1)) ;;;
  s <- start_ledp_server e handle_message sock arrivals (mkData control) ;;
  match fst s with
  | Some _ => ret (Some 1)
  | None => ret None
  end.

(** The bytes the lines of a command take: the budgets of its addressed
    indices. *)
Definition addressed_budget (packet : ledp_packet) (i : Z) (n : nat) : Z :=
  fold_right Z.add 0
    (map line_budget (filter (fun i => Z.testbit (mask packet) i) (indices i n))).

End Airos.

(* ------------------------------------------------------------------ *)
(** ** [servers/sysfs-leds.c] *)

Module SysfsLeds.
Import Server.

Record led_entry : Type := mkEntry {
  brightness_fd : Z;
  max_brightness : Z
}.

Record server_data : Type := mkData {
  entries : list led_entry;   (* the array [calloc] returned *)
  entries_count : Z;
  entries_found : Z
}.

(** An element of the zeroed array. *)
Definition zero_entry : led_entry := mkEntry 0 0.

(** [data->entries[led]]. *)
Definition entry_at (data : server_data) (led : Z) : led_entry :=
  nth (Z.to_nat led) (entries data) zero_entry.

(** The [for (led = 0; led < data->entries_count; led++)] loop, [n]
    turns from [led] on. *)
Fixpoint write_leds (data : server_data) (packet : ledp_packet) (n : nat)
    (led : Z) : io unit :=
  match n with
  | O => ret tt
  | S n' =>
      if negb (Int.test_u32 (mask packet) led)
      then write_leds data packet n' (led + 1)
      else
        let entry := entry_at data led in
        let value :=
          if Int.test_u32 (values packet) led then max_brightness entry else 0 in
        let '(line, line_length) := sprintf (decimal value ++ nl) in
        written <- write (brightness_fd entry) line line_length ;;
        assert (written =? line_length) ;;;
        write_leds data packet n' (led + 1)
  end.

Definition handle_message (data : server_data) (packet : ledp_packet)
    : io server_data :=
  write_leds data packet (Z.to_nat (entries_count data)) 0 ;;;
  ret data.

(** The entries in use are inside the array, at most 32, and their
    control files are different files. *)
Definition well_formed (data : server_data) : Prop :=
  0 <= entries_count data <= 32
  /\ entries_count data <= Z.of_nat (List.length (entries data))
  /\ NoDup (map brightness_fd
              (firstn (Z.to_nat (entries_count data)) (entries data))).

(** The line the handler writes for LED [led]. *)
Definition brightness_line (data : server_data) (packet : ledp_packet)
    (led : Z) : string :=
  decimal (if Z.testbit (values packet) led
           then max_brightness (entry_at data led) else 0) ++ nl.

(** An entry of the directory that is not [.] or [..]. *)
Definition candidate (name : string) : bool :=
  negb (String.eqb name "." || String.eqb name "..").

(** What the setup sees of the machine. *)
Record sysfs : Type := mkSysfs {
  chdir_status : Z;                        (* [chdir("/sys/class/leds")] *)
  scandir_names : option (list string);    (* sorted, or [None] on failure *)
  calloc_ok : bool;
  (* [fopen(path, "r")] then [fscanf(..., "%d", ...)]: [None] when the
     file does not open, [Some None] when no integer is read *)
  scan_file : string -> option (option Z);
  open_wronly : string -> Z                (* [open(path, O_WRONLY)] *)
}.

(** [a[k] = f(a[k])]. *)
Fixpoint set_entry (k : nat) (f : led_entry -> led_entry)
    (a : list led_entry) : list led_entry :=
  match a, k with
  | [], _ => []
  | x :: rest, O => f x :: rest
  | x :: rest, S k' => x :: set_entry k' f rest
  end.

(** The status [process_led] returns, and [*data] after the call. *)
Definition process_led (fs : sysfs) (data : server_data) (name : string)
    : io (Z * server_data) :=
  let found := entries_found data + 1 in
  if 32 <=? entries_count data
  then ret (1, mkData (entries data) (entries_count data) found)
  else
    let k := Z.to_nat (entries_count data) in
    let count := entries_count data + 1 in
    let path := name ++ "/max_brightness" in
    match scan_file fs path with
    | None =>
        eprint ("Couldn't open " ++ path ++ " for reading" ++ nl) ;;;
        ret (1, mkData (entries data) count found)
    | Some None =>
        eprint ("Couldn't scan max brightness of LED " ++ name ++ nl) ;;;
        ret (1, mkData (entries data) count found)
    | Some (Some brightness) =>
        let entries1 :=
          set_entry k (fun e => mkEntry (brightness_fd e) brightness)
            (entries data) in
        let path := name ++ "/brightness" in
        let fd := open_wronly fs path in
        let entries2 :=
          set_entry k (fun e => mkEntry fd (max_brightness e)) entries1 in
        if fd =? -1
        then
          eprint ("Couldn't open " ++ path ++ " for writing" ++ nl) ;;;
          ret (1, mkData entries2 count found)
        else ret (0, mkData entries2 count found)
    end.

(** The loop of [main] over [lednames]: the status that makes [main]
    return, if any, and [data]. *)
Fixpoint process_leds (fs : sysfs) (lednames : list string)
    (data : server_data) : io (option Z * server_data) :=
  match lednames with
  | [] => ret (None, data)
  | name :: rest =>
      if String.eqb name "." || String.eqb name ".."
      then process_leds fs rest data
      else
        r <- process_led fs data name ;;
        if negb (fst r =? 0) then ret (Some 1, snd r)
        else process_leds fs rest (snd r)
  end.

Definition warning (data : server_data) : string :=
  "Warning: " ++ decimal (entries_found data) ++ " LEDs found. Serving the first "
    ++ decimal (entries_count data) ++ "." ++ nl.

Definition serving (data : server_data) : string :=
  "Serving " ++ decimal (entries_count data) ++ " LEDs." ++ nl.

(** [main], up to the arrivals the server loop has seen.  [Some s] is
    the exit status; [None] says the process is still serving. *)
Definition main (e : endianness) (fs : sysfs) (sock : Z)
    (arrivals : list arrival) : io (option Z) :=
  if negb (chdir_status fs =? 0)
  then eprint ("Couldn't enter /sys/class/leds directory." ++ nl) ;;; ret (Some 1)
  else
    match scandir_names fs with
    | None =>
        eprint ("Failed to scan /sys/class/leds for LEDs" ++ nl) ;;; ret (Some 1)
    | Some lednames =>
        if negb (calloc_ok fs)
        then
          eprint ("Couldn't allocate space for LED entries" ++ nl) ;;;
          ret (Some 1)
        else
          let data0 :=
            mkData (repeat zero_entry (List.length lednames)) 0 0 in
          r <- process_leds fs lednames data0 ;;
          match fst r with
          | Some status => ret (Some status)
          | None =>
              let data := snd r in
              (if entries_count data <? entries_found data
               then eprint (warning data)
               else ret tt) ;;;
              emit (EvStdout (serving data)) ;;;
              s <- start_ledp_server e handle_message sock arrivals data ;;
              match fst s with
              | Some _ => ret (Some 1)
              | None => ret None
              end
          end
    end.

(** *** A machine with 33 LEDs

    [/sys/class/leds] holds [led00] to [led32]; every [max_brightness]
    reads 255 and every [brightness] opens, each on a descriptor of its
    own. *)

Definition led_names (n : nat) : list string :=
  map (fun k => "led" ++ (if Z.of_nat k <? 10 then "0" else EmptyString)
                 ++ decimal (Z.of_nat k))
      (seq 0 n).

Fixpoint index_of (x : string) (l : list string) : nat :=
  match l with
  | [] => O
  | y :: rest => if String.eqb x y then O else S (index_of x rest)
  end.

Definition crowded : sysfs :=
  mkSysfs 0 (Some ("." :: ".." :: led_names 33)) true
    (fun _ => Some (Some 255))
    (fun path =>
       3 + Z.of_nat (index_of path
                       (map (fun name => name ++ "/brightness") (led_names 33)))).


(** *** What the setup is expected to build *)

(** The write the handler makes for LED [led]. *)
Definition led_write (data : server_data) (packet : ledp_packet) (led : Z)
    : event :=
  EvWrite (brightness_fd (entry_at data led)) (brightness_line data packet led).

(** The indices [led], [led + 1], ..., [n] of them. *)
Fixpoint leds_from (led : Z) (n : nat) : list Z :=
  match n with
  | O => []
  | S n' => led :: leds_from (led + 1) n'
  end.

(** The maximum brightness the setup reads for a name, 0 when it reads
    none. *)
Definition scanned (fs : sysfs) (name : string) : Z :=
  match scan_file fs (name ++ "/max_brightness") with
  | Some (Some brightness) => brightness
  | _ => 0
  end.

(** A directory entry whose two files the setup can use. *)
Definition usable (fs : sysfs) (name : string) : bool :=
  match scan_file fs (name ++ "/max_brightness") with
  | Some (Some _) => negb (open_wronly fs (name ++ "/brightness") =? -1)
  | _ => false
  end.

(** The entries of the candidates of a directory, in its order. *)
Definition mapped (fs : sysfs) (lednames : list string) : list led_entry :=
  map (fun name =>
         mkEntry (open_wronly fs (name ++ "/brightness")) (scanned fs name))
      (filter candidate lednames).

(** The message [process_led] prints for a name it cannot use. *)
Definition setup_error (fs : sysfs) (name : string) : string :=
  match scan_file fs (name ++ "/max_brightness") with
  | None => "Couldn't open " ++ (name ++ "/max_brightness") ++ " for reading" ++ nl
  | Some None => "Couldn't scan max brightness of LED " ++ name ++ nl
  | Some (Some _) =>
      "Couldn't open " ++ (name ++ "/brightness") ++ " for writing" ++ nl
  end.

(** A machine with three LEDs, for the examples. *)
Definition small : sysfs :=
  mkSysfs 0 (Some ("." :: ".." :: led_names 3)) true
    (fun _ => Some (Some 255))
    (fun path =>
       3 + Z.of_nat (index_of path
                       (map (fun name => name ++ "/brightness") (led_names 3)))).


(** The same machine with the [max_brightness] of [led01] unreadable. *)
Definition broken : sysfs :=
  mkSysfs 0 (Some ("." :: ".." :: led_names 3)) true
    (fun path =>
       if String.eqb path "led01/max_brightness" then None
       else Some (Some 255))
    (open_wronly small).

(** Two mapped LEDs, for the examples. *)
Definition board : server_data :=
  mkData [mkEntry 4 255; mkEntry 5 1] 2 2.

End SysfsLeds.

(* ================================================================== *)
(** * Properties *)

(* ------------------------------------------------------------------ *)
(** ** Machine integers and the codec *)

Section Codec.
Import Server.

Lemma to_uint32_testbit z i :
  0 <= i < 32 -> Z.testbit (Int.to_uint32 z) i = Z.testbit z i.
Proof.
  intros Hi. unfold Int.to_uint32. apply Z.mod_pow2_bits_low. lia.
Qed.

Lemma to_int_testbit z i :
  0 <= i < 32 -> Z.testbit (Int.to_int z) i = Z.testbit z i.
Proof.
  intros Hi. unfold Int.to_int.
  destruct (z mod 2 ^ 32 <? 2 ^ 31).
  - apply Z.mod_pow2_bits_low. lia.
  - rewrite <- (Z.mod_pow2_bits_low (z mod 2 ^ 32 - 2 ^ 32) 32 i) by lia.
    replace ((z mod 2 ^ 32 - 2 ^ 32) mod 2 ^ 32) with (z mod 2 ^ 32).
    + apply Z.mod_pow2_bits_low. lia.
    + pose proof (Z.mod_pos_bound z (2 ^ 32)).
      apply (Z.mod_unique _ _ (-1)); lia.
Qed.

Lemma not32_testbit x i :
  0 <= i < 32 -> Z.testbit (Int.not32 x) i = negb (Z.testbit x i).
Proof.
  intros Hi. unfold Int.not32. rewrite to_uint32_testbit by assumption.
  apply Z.lnot_spec. lia.
Qed.

Lemma land_pow2_testbit x i :
  0 <= i -> negb (Z.land x (2 ^ i) =? 0) = Z.testbit x i.
Proof.
  intros Hi. destruct (Z.testbit x i) eqn:Hb.
  - destruct (Z.eqb_spec (Z.land x (2 ^ i)) 0) as [H0 | ]; [ | reflexivity ].
    exfalso. assert (Z.testbit (Z.land x (2 ^ i)) i = true).
    { rewrite Z.land_spec, Hb, Z.pow2_bits_true by lia. reflexivity. }
    rewrite H0, Z.bits_0 in H. discriminate.
  - replace (Z.land x (2 ^ i)) with 0; [ reflexivity | ].
    symmetry. apply Z.bits_inj'. intros n Hn.
    rewrite Z.land_spec, Z.bits_0, Z.pow2_bits_eqb by lia.
    destruct (Z.eqb_spec i n); subst; [ rewrite Hb | ]; auto using andb_false_r.
Qed.

Lemma uint32_bit i : 0 <= i < 32 -> Int.to_uint32 (Int.bit i) = 2 ^ i.
Proof.
  intros Hi. 
  assert (Hc : In i (map Z.of_nat (seq 0 32))).
  { replace i with (Z.of_nat (Z.to_nat i)) by lia. apply in_map, in_seq. lia. }
  cbv [seq map In] in Hc.
  repeat (destruct Hc as [<- | Hc]; [ reflexivity | ]). contradiction.
Qed.

Lemma int_bit i : 0 <= i < 31 -> Int.bit i = 2 ^ i.
Proof.
  intros Hi. 
  assert (Hc : In i (map Z.of_nat (seq 0 31))).
  { replace i with (Z.of_nat (Z.to_nat i)) by lia. apply in_map, in_seq. lia. }
  cbv [seq map In] in Hc.
  repeat (destruct Hc as [<- | Hc]; [ reflexivity | ]). contradiction.
Qed.

Lemma test_u32_testbit x i : 0 <= i < 32 -> Int.test_u32 x i = Z.testbit x i.
Proof.
  intros Hi. unfold Int.test_u32. rewrite uint32_bit by assumption.
  apply land_pow2_testbit. lia.
Qed.

Lemma test_int_testbit x i : 0 <= i < 31 -> Int.test_int x i = Z.testbit x i.
Proof.
  intros Hi. unfold Int.test_int. rewrite int_bit by assumption.
  apply land_pow2_testbit. lia.
Qed.

Lemma byte_val_range b : 0 <= byte_val b < 256.
Proof.
  unfold byte_val. pose proof (Byte.to_N_bounded b). lia.
Qed.

Lemma small_testbit b n : 0 <= b < 256 -> 8 <= n -> Z.testbit b n = false.
Proof.
  intros Hb Hn. rewrite <- (Z.mod_small b (2 ^ 8)) by lia.
  apply Z.mod_pow2_bits_high. lia.
Qed.

Lemma lor_shiftl_add hi lo k :
  0 <= k -> 0 <= lo < 2 ^ k -> Z.lor (Z.shiftl hi k) lo = hi * 2 ^ k + lo.
Proof.
  intros Hk Hlo. rewrite Z.shiftl_mul_pow2 by lia.
  apply Z.or_to_plus. apply Z.bits_inj'. intros n Hn.
  rewrite Z.land_spec, Z.bits_0.
  destruct (Z.ltb_spec n k).
  - rewrite Z.mul_pow2_bits_low by lia. reflexivity.
  - rewrite <- (Z.mod_small lo (2 ^ k)) by lia.
    rewrite Z.mod_pow2_bits_high by lia. apply andb_false_r.
Qed.

Lemma canon_be32 b0 b1 b2 b3 :
  0 <= b0 < 256 -> 0 <= b1 < 256 -> 0 <= b2 < 256 -> 0 <= b3 < 256 ->
  Z.lor (Z.shiftl b0 24) (Z.lor (Z.shiftl b1 16) (Z.lor (Z.shiftl b2 8) b3))
  = be32 b0 b1 b2 b3.
Proof.
  intros H0 H1 H2 H3. unfold be32.
  rewrite (lor_shiftl_add b2 b3 8) by lia.
  rewrite (lor_shiftl_add b1 _ 16) by lia.
  rewrite (lor_shiftl_add b0 _ 24) by lia. lia.
Qed.

Lemma bswap_le b0 b1 b2 b3 :
  0 <= b0 < 256 -> 0 <= b1 < 256 -> 0 <= b2 < 256 -> 0 <= b3 < 256 ->
  let x := Z.lor (Z.lor b0 (Z.shiftl b1 8)) (Z.lor (Z.shiftl b2 16) (Z.shiftl b3 24)) in
  Z.lor
        (Z.lor (Z.shiftr (Z.land x 4278190080) 24)
               (Z.shiftr (Z.land x 16711680) 8))
        (Z.lor (Z.shiftl (Z.land x 65280) 8)
               (Z.shiftl (Z.land x 255) 24))
  =  Z.lor (Z.shiftl b0 24) (Z.lor (Z.shiftl b1 16) (Z.lor (Z.shiftl b2 8) b3)).
Proof.
  intros H0 H1 H2 H3 x. subst x.
  change 4278190080 with (Z.shiftl (Z.ones 8) 24).
  change 16711680 with (Z.shiftl (Z.ones 8) 16).
  change 65280 with (Z.shiftl (Z.ones 8) 8).
  change 255 with (Z.ones 8).
  Z.bitblast.
  all: repeat match goal with
              | |- context [Z.testbit ?b ?l] =>
                  first [ rewrite (Z.testbit_neg_r b l) by lia
                        | rewrite (small_testbit b l) by lia ]
              end.
  all: repeat match goal with
              | |- context [Z.testbit ?b ?l] => destruct (Z.testbit b l)
              end; reflexivity.
Qed.

Lemma byte_at_range received k : 0 <= byte_at received k < 256.
Proof. apply byte_val_range. Qed.

Lemma htonl_load e received off :
  htonl e (load_uint32 e received off)
  = be32 (byte_at received off) (byte_at received (off + 1))
         (byte_at received (off + 2)) (byte_at received (off + 3)).
Proof.
  pose proof (byte_at_range received off).
  pose proof (byte_at_range received (off + 1)).
  pose proof (byte_at_range received (off + 2)).
  pose proof (byte_at_range received (off + 3)).
  rewrite <- canon_be32 by assumption.
  destruct e; unfold htonl, load_uint32.
  - apply bswap_le; assumption.
  - cbv zeta. rewrite <- !Z.lor_assoc. reflexivity.
Qed.

Lemma decode_datagram e payload :
  decode e (Datagram payload) =
  if negb (Z.of_nat (List.length (firstn 9 payload)) =? 9) then None
  else if negb (byte_at (firstn 9 payload) 0 =? 1) then None
  else Some (mkPacket (byte_at (firstn 9 payload) 0)
         (be32 (byte_at (firstn 9 payload) 1) (byte_at (firstn 9 payload) 2)
               (byte_at (firstn 9 payload) 3) (byte_at (firstn 9 payload) 4))
         (be32 (byte_at (firstn 9 payload) 5) (byte_at (firstn 9 payload) 6)
               (byte_at (firstn 9 payload) 7) (byte_at (firstn 9 payload) 8))).
Proof.
  unfold decode, recv. rewrite !htonl_load. reflexivity.
Qed.


Lemma be32_range b0 b1 b2 b3 :
  0 <= b0 < 256 -> 0 <= b1 < 256 -> 0 <= b2 < 256 -> 0 <= b3 < 256 ->
  0 <= be32 b0 b1 b2 b3 < 2 ^ 32.
Proof. unfold be32. lia. Qed.

Lemma firstn_all_length (payload : list byte) n :
  List.length payload = n -> firstn n payload = payload.
Proof. intros <-. apply firstn_all. Qed.

Lemma decode_dropped e a : dropped a -> decode e a = None.
Proof.
  destruct a as [payload | ]; [ | reflexivity ].
  intros [Hlen | Hver]; rewrite decode_datagram.
  - rewrite length_firstn.
    destruct (Z.eqb_spec (Z.of_nat (Nat.min 9 (List.length payload))) 9);
      [ lia | reflexivity ].
  - destruct (negb _); [ reflexivity | ].
    replace (byte_at (firstn 9 payload) 0) with (byte_at payload 0).
    + destruct (Z.eqb_spec (byte_at payload 0) 1); [ contradiction | reflexivity ].
    + destruct payload; reflexivity.
Qed.

(** C4.  A 9-byte buffer whose byte 0 is 1 always decodes: [mask] is the
    big-endian unsigned 32-bit value of bytes 1-4 and [values] that of
    bytes 5-8, whatever those bytes are and on a host of either byte
    order; nothing else is validated. *)
Theorem decode_nine_bytes e payload :
  List.length payload = 9%nat ->
  byte_at payload 0 = 1 ->
  decode e (Datagram payload)
  = Some (mkPacket 1
            (be32 (byte_at payload 1) (byte_at payload 2)
                  (byte_at payload 3) (byte_at payload 4))
            (be32 (byte_at payload 5) (byte_at payload 6)
                  (byte_at payload 7) (byte_at payload 8)))
  /\ 0 <= be32 (byte_at payload 1) (byte_at payload 2)
               (byte_at payload 3) (byte_at payload 4) < 2 ^ 32
  /\ 0 <= be32 (byte_at payload 5) (byte_at payload 6)
               (byte_at payload 7) (byte_at payload 8) < 2 ^ 32.
Proof.
  intros Hlen Hver. split.
  - rewrite decode_datagram, (firstn_all_length payload 9 Hlen), Hlen, Hver.
    reflexivity.
  - split; apply be32_range; apply byte_at_range.
Qed.

(** The all-ones command of the specification's scenario 1. *)
Lemma decode_nine_bytes_witness :
  let payload := [x01; xff; xff; xff; xff; xff; xff; xff; xff] in
  List.length payload = 9%nat
  /\ byte_at payload 0 = 1
  /\ decode LittleEndian (Datagram payload)
     = Some (mkPacket 1 4294967295 4294967295).
Proof.
  intros payload. split; [ reflexivity | split; [ reflexivity | ] ].
  exact (proj1 (decode_nine_bytes LittleEndian payload eq_refl eq_refl)).
Defined.

(** C3, as stated, fails: a datagram of ten bytes is not rejected.  The
    receive call copies its first nine bytes and returns 9; the packet
    is decoded and the handler, here the one of the Wiimote server, is
    called and lights LED 0. *)
Lemma long_datagram_decoded :
  let payload := [x01; x00; x00; x00; x01; x00; x00; x00; x01; xff] in
  List.length payload <> 9%nat
  /\ decode LittleEndian (Datagram payload) = Some (mkPacket 1 1 1)
  /\ decode BigEndian (Datagram payload) = Some (mkPacket 1 1 1)
  /\ serve LittleEndian (Wiimote.handle_message 1 2 4 8) [Datagram payload]
       (Wiimote.mkData 7 0) (mkWorld [] [])
     = Returned (Wiimote.mkData 7 1) (mkWorld [] [EvSetLed 1]).
Proof. repeat split. discriminate. Qed.

(** C3, amended.  A datagram shorter than 9 bytes, a failed receive, or
    a first byte other than 1 is rejected: the loop goes on to the next
    arrival without calling the handler, so nothing changes.  A datagram
    longer than 9 bytes is decoded from its first 9 bytes. *)
Theorem short_or_foreign_datagram_dropped e a :
  dropped a ->
  decode e a = None
  /\ (forall (opaque_t : Type) (handler : opaque_t -> ledp_packet -> io opaque_t)
        rest opaque w,
        serve e handler (a :: rest) opaque w = serve e handler rest opaque w)
  /\ (forall payload,
        decode e (Datagram payload) = decode e (Datagram (firstn 9 payload))).
Proof.
  intros Hdrop. pose proof (decode_dropped e a Hdrop) as Hnone.
  repeat split.
  - exact Hnone.
  - intros. simpl. rewrite Hnone. reflexivity.
  - intros payload. rewrite !decode_datagram.
    rewrite firstn_firstn. reflexivity.
Qed.

(** Scenarios 3 and 4 of the specification: a version-2 datagram and an
    8-byte datagram. *)
Lemma short_or_foreign_datagram_dropped_witness :
  let foreign := Datagram [x02; xff; xff; xff; xff; xff; xff; xff; xff] in
  let short := Datagram [x01; xff; xff; xff; xff; xff; xff; xff] in
  dropped foreign /\ decode BigEndian foreign = None
  /\ dropped short /\ decode BigEndian short = None.
Proof.
  intros foreign short.
  assert (Hf : dropped foreign) by (right; discriminate).
  assert (Hs : dropped short) by (left; simpl; lia).
  split; [ exact Hf | ].
  split; [ exact (proj1 (short_or_foreign_datagram_dropped BigEndian foreign Hf)) | ].
  split; [ exact Hs | ].
  exact (proj1 (short_or_foreign_datagram_dropped BigEndian short Hs)).
Defined.

(** The loop calls the handler on the decoded packets, in arrival
    order. *)
Lemma serve_handle_all e (opaque_t : Type)
    (handler : opaque_t -> ledp_packet -> io opaque_t) arrivals opaque w :
  serve e handler arrivals opaque w
  = handle_all handler (decoded e arrivals) opaque w.
Proof.
  revert opaque w. induction arrivals as [ | a rest IH]; intros opaque w.
  - reflexivity.
  - simpl. destruct (decode e a) as [packet | ].
    + simpl. unfold bind. destruct (handler opaque packet w); auto.
    + apply IH.
Qed.

End Codec.

(* ------------------------------------------------------------------ *)
(** ** The Wiimote server *)

Section WiimoteProofs.
Import Server Wiimote.
Variables f1 f2 f3 f4 : Z.


Lemma update_leds_testbit leds packet i :
  0 <= i < 32 ->
  Z.testbit (update_leds leds packet) i
  = (Z.testbit leds i && negb (Z.testbit (mask packet) i))
    || Z.testbit (values packet) i.
Proof.
  intros Hi. unfold update_leds.
  rewrite to_int_testbit, Z.lor_spec, to_uint32_testbit by assumption.
  rewrite to_int_testbit, Z.land_spec, to_uint32_testbit by assumption.
  rewrite not32_testbit by assumption. reflexivity.
Qed.

Lemma combined_flags_unfold leds :
  combined_flags f1 f2 f3 f4 leds
  = let a := if Z.testbit leds 0 then Z.lor 0 f1 else 0 in
    let b := if Z.testbit leds 1 then Z.lor a f2 else a in
    let c := if Z.testbit leds 2 then Z.lor b f3 else b in
    if Z.testbit leds 3 then Z.lor c f4 else c.
Proof.
  unfold combined_flags. simpl.
  rewrite !test_int_testbit by lia. reflexivity.
Qed.

(** The flags depend on bits 0-3 of the shadow register only. *)
Lemma combined_flags_low_bits leds leds' :
  (forall i, 0 <= i < 4 -> Z.testbit leds i = Z.testbit leds' i) ->
  combined_flags f1 f2 f3 f4 leds = combined_flags f1 f2 f3 f4 leds'.
Proof.
  intros H. rewrite !combined_flags_unfold.
  rewrite (H 0), (H 1), (H 2), (H 3) by lia. reflexivity.
Qed.

Lemma separate_flags_facts :
  separate_flags f1 f2 f3 f4 = true ->
  (f1 <> 0 /\ f2 <> 0 /\ f3 <> 0 /\ f4 <> 0)
  /\ Z.land f1 f2 = 0 /\ Z.land f1 f3 = 0 /\ Z.land f1 f4 = 0
  /\ Z.land f2 f3 = 0 /\ Z.land f2 f4 = 0 /\ Z.land f3 f4 = 0.
Proof.
  unfold separate_flags. rewrite !andb_true_iff, !negb_true_iff.
  rewrite !Z.eqb_eq, !Z.eqb_neq. tauto.
Qed.

(** A report lights LED [k] exactly when entry [k] of the shadow register
    is on. *)
Lemma lit_combined_flags leds k :
  separate_flags f1 f2 f3 f4 = true ->
  (k < 4)%nat ->
  lit (combined_flags f1 f2 f3 f4 leds) (nth k (led_flags f1 f2 f3 f4) 0)
  = Z.testbit leds (Z.of_nat k).
Proof.
  intros Hsep Hk.
  destruct (separate_flags_facts Hsep)
    as [[N1 [N2 [N3 N4]]] [H12 [H13 [H14 [H23 [H24 H34]]]]]].
  pose proof (Z.land_comm f2 f1) as H21. rewrite H12 in H21.
  pose proof (Z.land_comm f3 f1) as H31. rewrite H13 in H31.
  pose proof (Z.land_comm f4 f1) as H41. rewrite H14 in H41.
  pose proof (Z.land_comm f3 f2) as H32. rewrite H23 in H32.
  pose proof (Z.land_comm f4 f2) as H42. rewrite H24 in H42.
  pose proof (Z.land_comm f4 f3) as H43. rewrite H34 in H43.
  rewrite combined_flags_unfold. unfold lit. cbv zeta.
  destruct k as [ | [ | [ | [ | k]]]]; [ | | | | lia ]; simpl nth;
    change (Z.of_nat 0) with 0; change (Z.of_nat 1) with 1;
    change (Z.of_nat 2) with 2; change (Z.of_nat 3) with 3;
    destruct (Z.testbit leds 0), (Z.testbit leds 1),
             (Z.testbit leds 2), (Z.testbit leds 3);
    rewrite ?Z.lor_0_l, ?Z.land_lor_distr_l, ?Z.land_diag, ?Z.land_0_l,
      ?H12, ?H13, ?H14, ?H23, ?H24, ?H34, ?H21, ?H31, ?H41, ?H32, ?H42, ?H43,
      ?Z.lor_0_l, ?Z.lor_0_r;
    try reflexivity;
    match goal with
    | |- negb (?f =? 0) = true =>
        destruct (Z.eqb_spec f 0); [ contradiction | reflexivity ]
    end.
Qed.

Lemma handle_message_result data packet w :
  handle_message f1 f2 f3 f4 data packet w
  = let leds' := update_leds (leds data) packet in
    let flags := combined_flags f1 f2 f3 f4 leds' in
    Returned (mkData (wiimote data) leds')
      match returns w with
      | [] => mkWorld [] (EvSetLed flags :: trace w)
      | r :: rs =>
          if r =? 0 then mkWorld rs (EvSetLed flags :: trace w)
          else mkWorld rs
                 (EvStderr ("Couldn't send command to Wiimote" ++ nl)
                  :: EvSetLedFailed flags :: trace w)
      end.
Proof.
  unfold handle_message, bind, cwiid_set_led.
  destruct (returns w) as [ | r rs]; [ reflexivity | ].
  destruct (Z.eqb_spec r 0) as [-> | Hr]; [ reflexivity | ].
  simpl. destruct (Z.eqb_spec r 0); [ contradiction | reflexivity ].
Qed.

Lemma handle_message_reports data packet w :
  exists w',
    handle_message f1 f2 f3 f4 data packet w
    = Returned (mkData (wiimote data) (update_leds (leds data) packet)) w'
    /\ reports (trace w')
       = (reports (trace w)
          ++ [combined_flags f1 f2 f3 f4 (update_leds (leds data) packet)])%list
    /\ (returns w = [] ->
        returns w' = []
        /\ last_report (trace w')
           = Some (combined_flags f1 f2 f3 f4 (update_leds (leds data) packet))).
Proof.
  rewrite handle_message_result. cbv zeta.
  eexists. split; [ reflexivity | ].
  destruct (returns w) as [ | r rs].
  - simpl. auto.
  - split; [ | discriminate ]. destruct (r =? 0); reflexivity.
Qed.

(** Whatever the reports do, the handler returns, and the shadow register
    after a list of packets is the fold of the two assignments. *)
Lemma handle_all_shadow packets data w :
  exists w',
    handle_all (handle_message f1 f2 f3 f4) packets data w
    = Returned (mkData (wiimote data)
                  (fold_left update_leds packets (leds data))) w'
    /\ reports (trace w')
       = (reports (trace w) ++ flags_along f1 f2 f3 f4 (leds data) packets)%list
    /\ (returns w = [] -> returns w' = []).
Proof.
  revert data w. induction packets as [ | packet rest IH]; intros data w.
  - exists w. simpl. rewrite app_nil_r. destruct data; auto.
  - destruct (handle_message_reports data packet w) as [w1 [H1 [R1 E1]]].
    destruct (IH (mkData (wiimote data) (update_leds (leds data) packet)) w1)
      as [w2 [H2 [R2 E2]]].
    exists w2. simpl. unfold bind. rewrite H1.
    split; [ exact H2 | ]. split.
    + rewrite R2, R1, <- app_assoc. reflexivity.
    + intros E. apply E2, E1, E.
Qed.

Lemma low_bits_testbit x y i :
  Z.land x 15 = Z.land y 15 -> 0 <= i < 4 -> Z.testbit x i = Z.testbit y i.
Proof.
  intros H Hi.
  assert (T : forall z, Z.testbit (Z.land z 15) i = Z.testbit z i).
  { intros z. rewrite Z.land_spec. change 15 with (Z.ones 4).
    rewrite Z.ones_spec_low by lia. apply andb_true_r. }
  rewrite <- (T x), <- (T y), H. reflexivity.
Qed.

(** Bits 0-3 of the shadow register, of the masks and of the values
    decide the flags written. *)
Lemma low_bits_decide_flags ps qs :
  Forall2 same_low_bits ps qs ->
  forall l1 l2,
    (forall i, 0 <= i < 4 -> Z.testbit l1 i = Z.testbit l2 i) ->
    flags_along f1 f2 f3 f4 l1 ps = flags_along f1 f2 f3 f4 l2 qs.
Proof.
  induction 1 as [ | p q ps qs [Hm Hv] _ IH]; intros l1 l2 Hl.
  - reflexivity.
  - assert (Hu : forall i, 0 <= i < 4 ->
                 Z.testbit (update_leds l1 p) i = Z.testbit (update_leds l2 q) i).
    { intros i Hi. rewrite !update_leds_testbit by lia.
      rewrite (Hl i Hi), (low_bits_testbit _ _ i Hm Hi),
        (low_bits_testbit _ _ i Hv Hi). reflexivity. }
    simpl. f_equal.
    + apply combined_flags_low_bits, Hu.
    + apply IH, Hu.
Qed.

(** An entry that is not addressed keeps its state when the command
    carries no values bit for it. *)
Lemma update_leds_clean_entry leds packet i :
  0 <= i < 32 ->
  Z.testbit (mask packet) i = false ->
  Z.testbit (values packet) i = false ->
  Z.testbit (update_leds leds packet) i = Z.testbit leds i.
Proof.
  intros Hi Hm Hv. rewrite update_leds_testbit, Hm, Hv by assumption.
  rewrite andb_true_r, orb_false_r. reflexivity.
Qed.

(** Two lists of commands that agree on bits 0-3 of every mask and of
    every values, applied to shadow registers that agree on bits 0-3,
    hand the same flags to the Wiimote, whatever else differs. *)
Lemma low_bits_decide_reports ps qs d1 d2 w1 w2 :
  Forall2 same_low_bits ps qs ->
  (forall i, 0 <= i < 4 -> Z.testbit (leds d1) i = Z.testbit (leds d2) i) ->
  exists d1' w1' d2' w2' written,
    handle_all (handle_message f1 f2 f3 f4) ps d1 w1 = Returned d1' w1'
    /\ handle_all (handle_message f1 f2 f3 f4) qs d2 w2 = Returned d2' w2'
    /\ reports (trace w1') = (reports (trace w1) ++ written)%list
    /\ reports (trace w2') = (reports (trace w2) ++ written)%list.
Proof.
  intros Hpq Hl.
  destruct (handle_all_shadow ps d1 w1) as [w1' [H1 [R1 _]]].
  destruct (handle_all_shadow qs d2 w2) as [w2' [H2 [R2 _]]].
  do 4 eexists. exists (flags_along f1 f2 f3 f4 (leds d1) ps).
  split; [ exact H1 | ]. split; [ exact H2 | ]. split; [ exact R1 | ].
  rewrite R2, (low_bits_decide_flags ps qs Hpq (leds d1) (leds d2) Hl).
  reflexivity.
Qed.

(** C1.  The Wiimote server turns LED 0 on for a command whose mask is
    empty: the shadow entry and the report both change for an LED that
    the command does not address. *)
Theorem wiimote_unaddressed_led_turned_on :
  let data := mkData 0 0 in
  let packet := mkPacket 1 0 1 in
  Z.testbit (mask packet) 0 = false
  /\ shadow data 0 = false
  /\ handle_message f1 f2 f3 f4 data packet (mkWorld [] [])
     = Returned (mkData 0 1) (mkWorld [] [EvSetLed f1])
  /\ shadow (mkData 0 1) 0 = true.
Proof. repeat split. Qed.

(** C5.  A command that addresses LED 1 only and carries bit 0 in its
    values: the shadow entry of LED 0 does not stay as it was, and the
    one report lights LED 1 and LED 0. *)
Theorem wiimote_shadow_takes_unmasked_values :
  let data := mkData 0 0 in
  let packet := mkPacket 1 2 3 in
  Z.testbit (mask packet) 0 = false
  /\ shadow data 0 = false
  /\ handle_message f1 f2 f3 f4 data packet (mkWorld [] [])
     = Returned (mkData 0 3) (mkWorld [] [EvSetLed (Z.lor f1 f2)])
  /\ shadow (mkData 0 3) 0 = true.
Proof. repeat split. Qed.

(** C9.  After an empty command, a command whose mask holds bit 4 only
    changes what is written to the Wiimote, from no LED to LED 0. *)
Theorem wiimote_high_index_command_changes_report :
  let idle := mkPacket 1 0 0 in
  let packet := mkPacket 1 16 17 in
  Z.land (mask packet) 15 = 0
  /\ handle_all (handle_message f1 f2 f3 f4) [idle; packet] (mkData 0 0)
       (mkWorld [] [])
     = Returned (mkData 0 17) (mkWorld [] [EvSetLed f1; EvSetLed 0]).
Proof. repeat split. Qed.

(** C6.  A report that fails is printed and the handler returns, but
    the shadow register it leaves is not the state the command asks
    for: with an empty mask and bit 0 in the values, the entry of LED 0
    goes from off to on although no command addresses it, and the next
    report that is delivered, for a command that addresses nothing and
    carries no values, lights LED 0. *)
Theorem wiimote_failed_report_shadow_off_contract :
  let data := mkData 0 0 in
  let packet := mkPacket 1 0 1 in
  let idle := mkPacket 1 0 0 in
  Z.testbit (mask packet) 0 = false
  /\ shadow data 0 = false
  /\ handle_message f1 f2 f3 f4 data packet (mkWorld [1] [])
     = Returned (mkData 0 1)
         (mkWorld []
            [EvStderr ("Couldn't send command to Wiimote" ++ nl);
             EvSetLedFailed f1])
  /\ shadow (mkData 0 1) 0 = true
  /\ handle_all (handle_message f1 f2 f3 f4) [packet; idle] data
       (mkWorld [1] [])
     = Returned (mkData 0 1)
         (mkWorld []
            [EvSetLed f1;
             EvStderr ("Couldn't send command to Wiimote" ++ nl);
             EvSetLedFailed f1]).
Proof. repeat split. Qed.

End WiimoteProofs.

(* ------------------------------------------------------------------ *)
(** ** The AirOS server *)

Section AirosProofs.
Import Server Airos.

Lemma index_cases (P : Z -> Prop) i :
  0 <= i < 32 -> Forall P (indices 0 32) -> P i.
Proof.
  intros Hi HP. rewrite Forall_forall in HP. apply HP.
  assert (Hc : In i (map Z.of_nat (seq 0 32))).
  { replace i with (Z.of_nat (Z.to_nat i)) by lia. apply in_map, in_seq. lia. }
  exact Hc.
Qed.

Lemma command_line_length i value :
  0 <= i < 32 -> value = 0 \/ value = 1 ->
  Z.of_nat (String.length (command_line i value)) = line_budget i.
Proof.
  intros Hi Hv. revert i Hi.
  assert (H : Forall (fun i => Z.of_nat (String.length (command_line i value))
                               = line_budget i) (indices 0 32)).
  { destruct Hv as [-> | ->]; repeat constructor. }
  intros i Hi. exact (index_cases _ i Hi H).
Qed.

Lemma system_led_line i value rest p :
  0 <= i < 32 -> value = 0 \/ value = 1 ->
  system_led (command_line i value ++ rest) [] None p
  = system_led rest [] None (run_command [i; value; value] p).
Proof.
  intros Hi Hv. revert i Hi.
  assert (H : Forall (fun i => system_led (command_line i value ++ rest) [] None p
                 = system_led rest [] None (run_command [i; value; value] p))
                (indices 0 32)).
  { destruct Hv as [-> | ->]; repeat constructor. }
  intros i Hi. exact (index_cases _ i Hi H).
Qed.

Lemma substring_all s : substring 0 (String.length s) s = s.
Proof. induction s as [ | c s IH]; simpl; [ | rewrite IH ]; reflexivity. Qed.

Lemma append_length a b :
  String.length (a ++ b) = (String.length a + String.length b)%nat.
Proof. induction a as [ | c a IH]; simpl; [ | rewrite IH ]; reflexivity. Qed.

Lemma append_assoc a b c : (a ++ b) ++ c = a ++ (b ++ c).
Proof. induction a as [ | x a IH]; simpl; [ | rewrite IH ]; reflexivity. Qed.

Lemma append_nil_r a : a ++ EmptyString = a.
Proof. induction a as [ | x a IH]; simpl; [ | rewrite IH ]; reflexivity. Qed.

Lemma bit_value_cases (b : bool) :
  (if b then 1 else 0) = 0 \/ (if b then 1 else 0) = 1.
Proof. destruct b; auto. Qed.

Lemma indices_seq : indices 0 32 = map Z.of_nat (seq 0 32).
Proof. reflexivity. Qed.

Lemma addressed_lines_eq packet : addressed_lines packet = lines_from packet 0 32.
Proof. unfold addressed_lines. reflexivity. Qed.

Lemma join_cons x lines : join (x :: lines) = x ++ join lines.
Proof. reflexivity. Qed.

Lemma budget_step i n : budget i (S n) = line_budget i + budget (i + 1) n.
Proof. reflexivity. Qed.

Lemma line_budget_range i : 6 <= line_budget i <= 7.
Proof. unfold line_budget. destruct (i <? 10); lia. Qed.

Lemma budget_nonneg i n : 0 <= budget i n.
Proof.
  revert i. induction n as [ | n IH]; intros i.
  - unfold budget. simpl. lia.
  - rewrite budget_step. pose proof (line_budget_range i). specialize (IH (i + 1)). lia.
Qed.

Lemma lines_from_length packet n : forall i,
  0 <= i -> i + Z.of_nat n <= 32 ->
  Z.of_nat (String.length (join (lines_from packet i n))) <= budget i n.
Proof.
  induction n as [ | n IH]; intros i Hi Hn.
  - unfold lines_from, budget. simpl. lia.
  - specialize (IH (i + 1) ltac:(lia) ltac:(lia)).
    rewrite budget_step. pose proof (line_budget_range i).
    unfold lines_from in *. simpl indices. simpl filter.
    destruct (Z.testbit (mask packet) i).
    + cbn [map]. rewrite join_cons.
      rewrite append_length, Nat2Z.inj_add.
      rewrite command_line_length by (auto using bit_value_cases; lia).
      lia.
    + lia.
Qed.

(** The loop never stores past the end of the buffer, and what it stores
    are the lines of the addressed indices. *)
Lemma prepare_commands_lines packet n : forall i commands,
  0 <= i -> i + Z.of_nat n <= 32 ->
  Z.of_nat (String.length commands) + budget i n + 1 <= commands_size ->
  prepare_commands packet n i commands (Z.of_nat (String.length commands))
  = Some (commands ++ join (lines_from packet i n),
          Z.of_nat (String.length (commands ++ join (lines_from packet i n)))).
Proof.
  induction n as [ | n IH]; intros i commands Hi Hn Hfit.
  - simpl. rewrite append_nil_r. reflexivity.
  - unfold lines_from in *. simpl prepare_commands. simpl indices. simpl filter.
    rewrite !test_u32_testbit by lia.
    rewrite budget_step in Hfit.
    pose proof (budget_nonneg (i + 1) n) as Hrest.
    pose proof (line_budget_range i) as Hb.
    destruct (Z.testbit (mask packet) i); simpl negb; cbv iota.
    + unfold sprintf.
      set (line := command_line i (if Z.testbit (values packet) i then 1 else 0)).
      assert (Hl : Z.of_nat (String.length line) = line_budget i)
        by (apply command_line_length; auto using bit_value_cases; lia).
      rewrite Hl.
      destruct (Z.leb_spec (Z.of_nat (String.length commands) + line_budget i + 1)
                  commands_size) as [ _ | Hover ]; [ | lia ].
      rewrite Nat2Z.id, substring_all.
      replace (Z.of_nat (String.length commands) + line_budget i)
        with (Z.of_nat (String.length (commands ++ line)))
        by (rewrite append_length, Nat2Z.inj_add; lia).
      rewrite (IH (i + 1) (commands ++ line)).
      * cbn [map]. fold line. rewrite join_cons, !append_assoc. reflexivity.
      * lia.
      * lia.
      * rewrite append_length, Nat2Z.inj_add. lia.
    + apply IH; lia.
Qed.

Lemma prepare_commands_all packet :
  prepare_commands packet 32 0 EmptyString 0
  = Some (join (addressed_lines packet),
          Z.of_nat (String.length (join (addressed_lines packet)))).
Proof.
  rewrite addressed_lines_eq.
  change 0 with (Z.of_nat (String.length EmptyString)) at 2.
  rewrite (prepare_commands_lines packet 32 0 EmptyString).
  - reflexivity.
  - lia.
  - lia.
  - replace (budget 0 32) with 214 by (vm_compute; reflexivity).
    unfold commands_size. simpl. lia.
Qed.

Lemma substring_prefix s : substring 0 (Z.to_nat (Z.of_nat (String.length s))) s = s.
Proof. rewrite Nat2Z.id. apply substring_all. Qed.

Lemma handle_message_write data packet w :
  handle_message data packet w
  = (let text := join (addressed_lines packet) in
     let count := Z.of_nat (String.length text) in
     written <- write (control_fd data) text count ;;
     assert (written =? count) ;;;
     ret data) w.
Proof.
  unfold handle_message. rewrite prepare_commands_all. reflexivity.
Qed.

Lemma handle_message_success data packet tr :
  handle_message data packet (mkWorld [] tr)
  = Returned data
      (mkWorld [] (EvWrite (control_fd data) (join (addressed_lines packet)) :: tr)).
Proof.
  rewrite handle_message_write. cbv zeta. unfold bind, write, assert, ret.
  cbn [returns trace]. rewrite substring_prefix, Z.eqb_refl. reflexivity.
Qed.

(** C7.  The handler makes one [write] call, whose buffer is the
    concatenation of one line per addressed index of 0..31, in increasing
    order, each line being the index and twice the wanted bit; an index
    that is not addressed gets no line. *)
Theorem airos_one_write_of_addressed_lines data packet :
  addressed_lines packet
  = map (fun i =>
           decimal i ++ " " ++ decimal (if Z.testbit (values packet) i then 1 else 0)
           ++ " " ++ decimal (if Z.testbit (values packet) i then 1 else 0) ++ nl)
        (filter (fun i => Z.testbit (mask packet) i) (map Z.of_nat (seq 0 32)))
  /\ (forall w,
        handle_message data packet w
        = (let text := join (addressed_lines packet) in
           let count := Z.of_nat (String.length text) in
           written <- write (control_fd data) text count ;;
           assert (written =? count) ;;;
           ret data) w)
  /\ (forall tr,
        handle_message data packet (mkWorld [] tr)
        = Returned data
            (mkWorld []
               (EvWrite (control_fd data) (join (addressed_lines packet)) :: tr))).
Proof.
  split; [ | split ].
  - rewrite addressed_lines_eq. unfold lines_from. rewrite indices_seq. reflexivity.
  - intros w. apply handle_message_write.
  - intros tr. apply handle_message_success.
Qed.

(** C10.  A line is 6 bytes for the pins 0-9 and 7 bytes for the pins
    10-31, so the text of a command is at most 214 bytes: every
    [sprintf], with its NUL, stays inside the 224 bytes of [commands],
    and the count handed to [write] is the length of the text. *)
Theorem airos_commands_fit packet :
  (forall i value,
     0 <= i < 32 -> value = 0 \/ value = 1 ->
     Z.of_nat (String.length (command_line i value)) = if i <? 10 then 6 else 7)
  /\ exists commands commands_length,
       prepare_commands packet 32 0 EmptyString 0
       = Some (commands, commands_length)
       /\ commands_length = Z.of_nat (String.length commands)
       /\ commands_length <= 10 * 6 + 22 * 7
       /\ commands_length <= 214
       /\ commands_length + 1 <= commands_size
       /\ commands_size = 224
       /\ forall data w,
            handle_message data packet w
            = (written <- write (control_fd data) commands commands_length ;;
               assert (written =? commands_length) ;;;
               ret data) w.
Proof.
  split.
  - intros i value Hi Hv. apply command_line_length; assumption.
  - exists (join (addressed_lines packet)).
    exists (Z.of_nat (String.length (join (addressed_lines packet)))).
    pose proof (lines_from_length packet 32 0) as Hlen.
    replace (budget 0 32) with 214 in Hlen by (vm_compute; reflexivity).
    specialize (Hlen ltac:(lia) ltac:(lia)).
    rewrite <- addressed_lines_eq in Hlen.
    split; [ apply prepare_commands_all | ].
    split; [ reflexivity | ].
    split; [ lia | ]. split; [ lia | ].
    split; [ unfold commands_size; lia | ].
    split; [ reflexivity | ].
    intros data w. apply handle_message_write.
Qed.

Lemma airos_commands_fit_witness :
  0 <= 31 < 32 /\ (1 = 0 \/ 1 = 1)
  /\ Z.of_nat (String.length (command_line 31 1)) = 7.
Proof.
  assert (H31 : 0 <= 31 < 32) by lia.
  split; [ exact H31 | ]. split; [ right; reflexivity | ].
  exact (proj1 (airos_commands_fit (mkPacket 1 4294967295 4294967295))
           31 1 H31 (or_intror eq_refl)).
Defined.

Lemma bit_value_nonzero (b : bool) : negb ((if b then 1 else 0) =? 0) = b.
Proof. destruct b; reflexivity. Qed.

(** The control file after the lines of the indices from [i] on. *)
Lemma system_led_lines packet n : forall i p q,
  0 <= i -> i + Z.of_nat n <= 32 ->
  system_led (join (lines_from packet i n)) [] None p q
  = if (i <=? q) && (q <? i + Z.of_nat n) && Z.testbit (mask packet) q
    then Some (Z.testbit (values packet) q, Z.testbit (values packet) q)
    else p q.
Proof.
  induction n as [ | n IH]; intros i p q Hi Hn.
  - unfold lines_from. simpl.
    destruct (Z.leb_spec i q), (Z.ltb_spec q (i + 0)); try reflexivity; lia.
  - unfold lines_from in *. simpl indices. simpl filter.
    destruct (Z.testbit (mask packet) i) eqn:Hm.
    + cbn [map]. rewrite join_cons.
      rewrite system_led_line by (auto using bit_value_cases; lia).
      rewrite IH by lia. unfold run_command. rewrite !bit_value_nonzero.
      destruct (Z.eqb_spec q i) as [-> | Hq].
      * rewrite Hm.
        destruct (Z.leb_spec (i + 1) i); [ lia | ].
        destruct (Z.leb_spec i i); [ | lia ].
        destruct (Z.ltb_spec i (i + Z.of_nat (S n))); [ | lia ].
        reflexivity.
      * destruct (Z.leb_spec (i + 1) q), (Z.leb_spec i q),
          (Z.ltb_spec q (i + 1 + Z.of_nat n)),
          (Z.ltb_spec q (i + Z.of_nat (S n))); try reflexivity; lia.
    + rewrite IH by lia.
      destruct (Z.eqb_spec q i) as [-> | Hq].
      * rewrite Hm, !andb_false_r. reflexivity.
      * destruct (Z.leb_spec (i + 1) q), (Z.leb_spec i q),
          (Z.ltb_spec q (i + 1 + Z.of_nat n)),
          (Z.ltb_spec q (i + Z.of_nat (S n))); try reflexivity; lia.
Qed.

(** The pins after a command whose write succeeds: an addressed pin
    holds the wanted bit twice, any other pin is as it was. *)
Lemma airos_pins_after data packet tr q :
  exists tr',
    handle_message data packet (mkWorld [] tr) = Returned data (mkWorld [] tr')
    /\ pins_of (control_fd data) tr' q
       = if (0 <=? q) && (q <? 32) && Z.testbit (mask packet) q
         then Some (Z.testbit (values packet) q, Z.testbit (values packet) q)
         else pins_of (control_fd data) tr q.
Proof.
  eexists. split; [ apply handle_message_success | ].
  cbn [pins_of]. rewrite Z.eqb_refl, addressed_lines_eq.
  apply (system_led_lines packet 32 0); lia.
Qed.

End AirosProofs.

(* ------------------------------------------------------------------ *)
(** ** The sysfs server *)

Section SysfsProofs.
Import Server SysfsLeds.

Lemma distinct_fd data j k :
  well_formed data ->
  0 <= j < entries_count data -> 0 <= k < entries_count data ->
  brightness_fd (entry_at data j) = brightness_fd (entry_at data k) ->
  j = k.
Proof.
  intros [Hc [Hlen Hnd]] Hj Hk Hfd.
  set (c := Z.to_nat (entries_count data)) in *.
  assert (Hl : List.length (map brightness_fd (firstn c (entries data))) = c).
  { rewrite length_map, length_firstn. lia. }
  assert (Hn : forall i, 0 <= i < entries_count data ->
               nth (Z.to_nat i) (map brightness_fd (firstn c (entries data)))
                   (brightness_fd zero_entry)
               = brightness_fd (entry_at data i)).
  { intros i Hi. rewrite map_nth, nth_firstn.
    destruct (Nat.ltb_spec (Z.to_nat i) c); [ reflexivity | lia ]. }
  rewrite (NoDup_nth _ (brightness_fd zero_entry)) in Hnd.
  assert (Z.to_nat j = Z.to_nat k); [ | lia ].
  apply Hnd; try lia. rewrite !Hn by lia. exact Hfd.
Qed.

Lemma sprintf_length text :
  substring 0 (Z.to_nat (snd (sprintf text))) (fst (sprintf text)) = text.
Proof. unfold sprintf. simpl. apply substring_prefix. Qed.

(** The loop when every [write] succeeds: an addressed LED of the range
    gets its line, the control file of any other LED is left alone. *)
Lemma write_leds_success data packet n : forall led tr,
  well_formed data ->
  0 <= led -> led + Z.of_nat n <= entries_count data ->
  exists tr',
    write_leds data packet n led (mkWorld [] tr) = Returned tt (mkWorld [] tr')
    /\ forall k, 0 <= k < entries_count data ->
         last_write (brightness_fd (entry_at data k)) tr'
         = if (led <=? k) && (k <? led + Z.of_nat n)
              && Z.testbit (mask packet) k
           then Some (brightness_line data packet k)
           else last_write (brightness_fd (entry_at data k)) tr.
Proof.
  induction n as [ | n IH]; intros led tr Hwf Hled Hn.
  - exists tr. split; [ reflexivity | ]. intros k Hk.
    destruct (Z.leb_spec led k), (Z.ltb_spec k (led + Z.of_nat 0));
      try reflexivity; lia.
  - assert (H32 : entries_count data <= 32) by (destruct Hwf; lia).
    cbn [write_leds]. rewrite !test_u32_testbit by lia.
    destruct (Z.testbit (mask packet) led) eqn:Hm; cbn [negb].
    + unfold sprintf, bind, write, assert. cbn [returns trace].
      rewrite substring_prefix, Z.eqb_refl.
      destruct (IH (led + 1)
                  (EvWrite (brightness_fd (entry_at data led))
                     (brightness_line data packet led) :: tr)
                  Hwf ltac:(lia) ltac:(lia)) as [tr' [Hrun Hlast]].
      exists tr'. split; [ exact Hrun | ].
      intros k Hk. rewrite (Hlast k Hk). cbn [last_write].
      destruct (Z.eqb_spec k led) as [-> | Hne].
      * rewrite Hm, Z.eqb_refl.
        destruct (Z.leb_spec (led + 1) led); [ lia | ].
        destruct (Z.leb_spec led led); [ | lia ].
        destruct (Z.ltb_spec led (led + Z.of_nat (S n))); [ | lia ].
        reflexivity.
      * destruct (Z.eqb_spec (brightness_fd (entry_at data led))
                    (brightness_fd (entry_at data k))) as [Hfd | _].
        { exfalso. apply Hne. symmetry.
          apply (distinct_fd data led k Hwf); [ lia | lia | exact Hfd ]. }
        destruct (Z.leb_spec (led + 1) k), (Z.leb_spec led k),
          (Z.ltb_spec k (led + 1 + Z.of_nat n)),
          (Z.ltb_spec k (led + Z.of_nat (S n))); try reflexivity; lia.
    + destruct (IH (led + 1) tr Hwf ltac:(lia) ltac:(lia)) as [tr' [Hrun Hlast]].
      exists tr'. split; [ exact Hrun | ].
      intros k Hk. rewrite (Hlast k Hk).
      destruct (Z.eqb_spec k led) as [-> | Hne].
      * rewrite Hm, !andb_false_r. reflexivity.
      * destruct (Z.leb_spec (led + 1) k), (Z.leb_spec led k),
          (Z.ltb_spec k (led + 1 + Z.of_nat n)),
          (Z.ltb_spec k (led + Z.of_nat (S n))); try reflexivity; lia.
Qed.

Lemma sysfs_handle_success data packet tr :
  well_formed data ->
  exists tr',
    handle_message data packet (mkWorld [] tr) = Returned data (mkWorld [] tr')
    /\ forall k, 0 <= k < entries_count data ->
         last_write (brightness_fd (entry_at data k)) tr'
         = if Z.testbit (mask packet) k
           then Some (brightness_line data packet k)
           else last_write (brightness_fd (entry_at data k)) tr.
Proof.
  intros Hwf.
  destruct (write_leds_success data packet (Z.to_nat (entries_count data)) 0 tr
              Hwf ltac:(lia) ltac:(destruct Hwf; lia)) as [tr' [Hrun Hlast]].
  exists tr'. split.
  - unfold handle_message, bind. rewrite Hrun. reflexivity.
  - intros k Hk. rewrite (Hlast k Hk).
    destruct (Z.leb_spec 0 k); [ | lia ].
    destruct (Z.ltb_spec k (0 + Z.of_nat (Z.to_nat (entries_count data))));
      [ reflexivity | lia ].
Qed.

(** Whatever the [write] calls return, the control file of an LED that
    is not addressed gets nothing. *)
Lemma write_leds_masked data packet k n : forall led w,
  well_formed data ->
  0 <= led -> led + Z.of_nat n <= entries_count data ->
  0 <= k < entries_count data ->
  Z.testbit (mask packet) k = false ->
  last_write (brightness_fd (entry_at data k))
    (trace (world_of (write_leds data packet n led w)))
  = last_write (brightness_fd (entry_at data k)) (trace w).
Proof.
  induction n as [ | n IH]; intros led w Hwf Hled Hn Hk Hm.
  - reflexivity.
  - assert (H32 : entries_count data <= 32) by (destruct Hwf; lia).
    cbn [write_leds]. rewrite !test_u32_testbit by lia.
    destruct (Z.testbit (mask packet) led) eqn:Hml; cbn [negb].
    + assert (Hfd : (brightness_fd (entry_at data led)
                     =? brightness_fd (entry_at data k)) = false).
      { apply Z.eqb_neq. intros Hfd.
        assert (led = k) by (apply (distinct_fd data led k Hwf); [ lia | lia | exact Hfd ]).
        subst. congruence. }
      unfold sprintf, bind, write, assert.
      destruct (returns w) as [ | r rs].
      * rewrite Z.eqb_refl. rewrite IH by (assumption || lia).
        cbn [trace last_write]. rewrite Hfd. reflexivity.
      * destruct ((0 <=? r) && (r <=? _)).
        { destruct (r =? _).
          - rewrite IH by (assumption || lia).
            cbn [trace last_write]. rewrite Hfd. reflexivity.
          - cbn [world_of trace last_write]. rewrite Hfd. reflexivity. }
        { destruct (-1 =? _).
          - rewrite IH by (assumption || lia). reflexivity.
          - reflexivity. }
    + apply IH; assumption || lia.
Qed.

Lemma sysfs_handle_masked data packet k w :
  well_formed data ->
  0 <= k < entries_count data ->
  Z.testbit (mask packet) k = false ->
  last_write (brightness_fd (entry_at data k))
    (trace (world_of (handle_message data packet w)))
  = last_write (brightness_fd (entry_at data k)) (trace w).
Proof.
  intros Hwf Hk Hm.
  rewrite <- (write_leds_masked data packet k
                (Z.to_nat (entries_count data)) 0 w Hwf
                ltac:(lia) ltac:(destruct Hwf; lia) Hk Hm).
  unfold handle_message, bind.
  destruct (write_leds data packet _ 0 w); reflexivity.
Qed.

Section Setup.
Variable fs : sysfs.

(** [process_led] returns 0 only after it took a free entry, so the
    two counters move together. *)
Lemma process_led_counters data name w status data' w' :
  process_led fs data name w = Returned (status, data') w' ->
  status = 0 ->
  entries_count data' = entries_count data + 1
  /\ entries_found data' = entries_found data + 1
  /\ entries_count data < 32.
Proof.
  unfold process_led.
  destruct (Z.leb_spec 32 (entries_count data)) as [Hfull | Hfree].
  - unfold ret. intros H Hs. inversion H; subst. discriminate.
  - destruct (scan_file fs (name ++ "/max_brightness")) as [[v | ] | ].
    + destruct (open_wronly fs (name ++ "/brightness") =? -1);
        unfold bind, eprint, emit, ret; intros H Hs; inversion H; subst;
        [ discriminate | simpl; auto ].
    + unfold bind, eprint, emit, ret. intros H Hs. inversion H; subst.
      discriminate.
    + unfold bind, eprint, emit, ret. intros H Hs. inversion H; subst.
      discriminate.
Qed.

(** After the loop of [main] the two counters are equal: the warning
    of [main] is never printed. *)
Lemma process_leds_counters lednames : forall data w data' w',
  entries_found data = entries_count data ->
  process_leds fs lednames data w = Returned (None, data') w' ->
  entries_found data' = entries_count data'.
Proof.
  induction lednames as [ | name rest IH]; intros data w data' w' Heq Hrun.
  - inversion Hrun; subst. exact Heq.
  - cbn [process_leds] in Hrun.
    destruct (String.eqb name "." || String.eqb name "..").
    + apply (IH _ _ _ _ Heq Hrun).
    + unfold bind in Hrun.
      destruct (process_led fs data name w) as [[status data1] w1 | w1 | w1] eqn:Hled;
        try discriminate.
      cbn [fst snd] in Hrun.
      destruct (Z.eqb_spec status 0) as [Hs | Hs]; cbn [negb] in Hrun.
      * destruct (process_led_counters _ _ _ _ _ _ Hled Hs) as [Hc [Hf _]].
        apply (IH data1 w1 data' w'); [ lia | exact Hrun ].
      * inversion Hrun.
Qed.

Hypothesis scan_fine : forall path, exists v, scan_file fs path = Some (Some v).
Hypothesis open_fine : forall path, open_wronly fs path <> -1.

Lemma process_led_fine data name w :
  entries_count data < 32 ->
  exists entries',
    process_led fs data name w
    = Returned (0, mkData entries' (entries_count data + 1)
                     (entries_found data + 1)) w.
Proof.
  intros Hfree. unfold process_led.
  destruct (Z.leb_spec 32 (entries_count data)); [ lia | ].
  destruct (scan_fine (name ++ "/max_brightness")) as [v ->].
  destruct (Z.eqb_spec (open_wronly fs (name ++ "/brightness")) (-1)) as [Hfd | _].
  - destruct (open_fine _ Hfd).
  - eexists. reflexivity.
Qed.

Lemma process_led_full data name w :
  32 <= entries_count data ->
  process_led fs data name w
  = Returned (1, mkData (entries data) (entries_count data)
                   (entries_found data + 1)) w.
Proof.
  intros Hfull. unfold process_led.
  destruct (Z.leb_spec 32 (entries_count data)); [ reflexivity | lia ].
Qed.

(** With more candidates than free entries the loop ends on a status
    that makes [main] return. *)
Lemma process_leds_excess lednames : forall data w,
  0 <= entries_count data <= 32 ->
  32 < entries_count data
       + Z.of_nat (List.length (filter candidate lednames)) ->
  exists data', process_leds fs lednames data w = Returned (Some 1, data') w.
Proof.
  induction lednames as [ | name rest IH]; intros data w Hc Hmany.
  - simpl in Hmany. lia.
  - cbn [process_leds filter] in *. unfold candidate in Hmany at 1.
    destruct (String.eqb name "." || String.eqb name ".."); cbn [negb] in Hmany.
    + apply IH; assumption.
    + cbn [List.length] in Hmany. unfold bind.
      destruct (Z.eq_dec (entries_count data) 32) as [Hfull | Hfree].
      * rewrite process_led_full by lia. cbn [fst snd].
        eexists. reflexivity.
      * destruct (process_led_fine data name w ltac:(lia)) as [entries' ->].
        cbn [fst snd]. rewrite Z.eqb_refl. cbn [negb].
        apply IH; cbn [entries_count]; lia.
Qed.
End Setup.

(** C2.  With more than 32 candidate entries, all of them in order,
    [main] returns 1 when it meets the 33rd: it prints no warning and
    never enters the server loop.  The two counters the warning compares
    are equal whenever the loop of [main] is left normally. *)
Theorem sysfs_excess_leds_end_setup e fs sock arrivals lednames w :
  chdir_status fs = 0 ->
  scandir_names fs = Some lednames ->
  calloc_ok fs = true ->
  (forall path, exists v, scan_file fs path = Some (Some v)) ->
  (forall path, open_wronly fs path <> -1) ->
  (32 < List.length (filter candidate lednames))%nat ->
  main e fs sock arrivals w = Returned (Some 1) w
  /\ (forall names data v data' v',
        entries_found data = entries_count data ->
        process_leds fs names data v = Returned (None, data') v' ->
        (entries_count data' <? entries_found data') = false).
Proof.
  intros Hdir Hscan Halloc Hfine Hopen Hmany. split.
  - unfold main. rewrite Hdir, Hscan, Halloc. cbn [negb Z.eqb].
    unfold bind.
    destruct (process_leds_excess fs Hfine Hopen lednames
                (mkData (repeat zero_entry (List.length lednames)) 0 0) w)
      as [data' ->]; cbn [entries_count]; [ lia | lia | reflexivity ].
  - intros names data v data' v' Heq Hrun.
    rewrite (process_leds_counters fs names data v data' v' Heq Hrun).
    apply Z.ltb_irrefl.
Qed.

End SysfsProofs.

Section Sequences.
Import Server.

(** The machine with 33 LEDs. *)
Lemma sysfs_excess_leds_end_setup_witness :
  SysfsLeds.chdir_status SysfsLeds.crowded = 0
  /\ SysfsLeds.scandir_names SysfsLeds.crowded
     = Some ("." :: ".." :: SysfsLeds.led_names 33)
  /\ SysfsLeds.calloc_ok SysfsLeds.crowded = true
  /\ (32 < List.length (filter SysfsLeds.candidate ("." :: ".." :: SysfsLeds.led_names 33)))%nat
  /\ SysfsLeds.main LittleEndian SysfsLeds.crowded 3
       [Datagram [x01; xff; xff; xff; xff; xff; xff; xff; xff]] (mkWorld [] [])
     = Returned (Some 1) (mkWorld [] []).
Proof.
  assert (Hmany : (32 < List.length (filter SysfsLeds.candidate
                                       ("." :: ".." :: SysfsLeds.led_names 33)))%nat)
    by (vm_compute; lia).
  split; [ reflexivity | ]. split; [ reflexivity | ].
  split; [ reflexivity | ]. split; [ exact Hmany | ].
  refine (proj1 (sysfs_excess_leds_end_setup LittleEndian SysfsLeds.crowded 3
                   [Datagram [x01; xff; xff; xff; xff; xff; xff; xff; xff]]
                   ("." :: ".." :: SysfsLeds.led_names 33) (mkWorld [] [])
                   eq_refl eq_refl eq_refl _ _ Hmany)).
  - intros path. exists 255. reflexivity.
  - intros path. unfold SysfsLeds.crowded. cbn [SysfsLeds.open_wronly]. lia.
Defined.


(* ------------------------------------------------------------------ *)
(** ** Commands in sequence *)

(** C8.  When two commands address LED [i], the state of LED [i] after
    the two are applied in that order is bit [i] of the values of the
    second, whatever the first carried.  On the Wiimote server this is
    the shadow entry and, once the report is delivered, the LED the
    report lights; on the sysfs server, the line last written to the
    control file of the LED; on the AirOS server, the pin as the control
    file last read it. *)
Theorem last_command_wins :
  (forall f1 f2 f3 f4 data A B i w,
     0 <= i < 32 ->
     Z.testbit (mask A) i = true -> Z.testbit (mask B) i = true ->
     exists data' w',
       handle_all (Wiimote.handle_message f1 f2 f3 f4) [A; B] data w
       = Returned data' w'
       /\ Wiimote.shadow data' i = Z.testbit (values B) i
       /\ (returns w = [] ->
           last_report (trace w')
           = Some (Wiimote.combined_flags f1 f2 f3 f4 (Wiimote.leds data'))
           /\ forall k,
                (k < 4)%nat -> i = Z.of_nat k ->
                Wiimote.separate_flags f1 f2 f3 f4 = true ->
                Wiimote.lit
                  (Wiimote.combined_flags f1 f2 f3 f4 (Wiimote.leds data'))
                  (nth k (Wiimote.led_flags f1 f2 f3 f4) 0)
                = Z.testbit (values B) i))
  /\ (forall data A B i tr,
        SysfsLeds.well_formed data ->
        0 <= i < SysfsLeds.entries_count data ->
        Z.testbit (mask A) i = true -> Z.testbit (mask B) i = true ->
        exists tr',
          handle_all SysfsLeds.handle_message [A; B] data (mkWorld [] tr)
          = Returned data (mkWorld [] tr')
          /\ last_write (SysfsLeds.brightness_fd (SysfsLeds.entry_at data i)) tr'
             = Some (decimal (if Z.testbit (values B) i
                              then SysfsLeds.max_brightness
                                     (SysfsLeds.entry_at data i)
                              else 0) ++ nl))
  /\ (forall data A B i tr,
        0 <= i < 32 ->
        Z.testbit (mask A) i = true -> Z.testbit (mask B) i = true ->
        exists tr',
          handle_all Airos.handle_message [A; B] data (mkWorld [] tr)
          = Returned data (mkWorld [] tr')
          /\ Airos.pins_of (Airos.control_fd data) tr' i
             = Some (Z.testbit (values B) i, Z.testbit (values B) i)).
Proof.
  split; [ | split ].
  - intros f1 f2 f3 f4 data A B i w Hi _ HB.
    destruct (handle_message_reports f1 f2 f3 f4 data A w) as [w1 [H1 [_ E1]]].
    destruct (handle_message_reports f1 f2 f3 f4
                (Wiimote.mkData (Wiimote.wiimote data)
                   (Wiimote.update_leds (Wiimote.leds data) A)) B w1)
      as [w2 [H2 [_ E2]]].
    eexists. exists w2. split; [ | split ].
    + cbn [handle_all]. unfold bind. rewrite H1, H2. reflexivity.
    + unfold Wiimote.shadow. cbn [Wiimote.leds].
      rewrite update_leds_testbit, HB by assumption.
      rewrite andb_false_r. reflexivity.
    + intros Hw. destruct (E1 Hw) as [Hw1 _]. destruct (E2 Hw1) as [_ Hlast].
      split; [ exact Hlast | ].
      intros k Hk -> Hsep. cbn [Wiimote.leds Wiimote.wiimote].
      rewrite lit_combined_flags by assumption.
      rewrite update_leds_testbit, HB by assumption.
      rewrite andb_false_r. reflexivity.
  - intros data A B i tr Hwf Hi _ HB.
    destruct (sysfs_handle_success data A tr Hwf) as [tr1 [H1 _]].
    destruct (sysfs_handle_success data B tr1 Hwf) as [tr2 [H2 Hlast]].
    exists tr2. split.
    + cbn [handle_all]. unfold bind. rewrite H1, H2. reflexivity.
    + rewrite (Hlast i Hi), HB. reflexivity.
  - intros data A B i tr Hi _ HB.
    destruct (airos_pins_after data A tr i) as [tr1 [H1 _]].
    destruct (airos_pins_after data B tr1 i) as [tr2 [H2 Hpin]].
    exists tr2. split.
    + cbn [handle_all]. unfold bind. rewrite H1, H2. reflexivity.
    + rewrite Hpin, HB.
      destruct (Z.leb_spec 0 i); [ | lia ].
      destruct (Z.ltb_spec i 32); [ reflexivity | lia ].
Qed.

(** LED 0 turned on, then off, on each of the three servers. *)
Lemma last_command_wins_witness :
  let A := mkPacket 1 1 1 in
  let B := mkPacket 1 1 0 in
  let board := SysfsLeds.mkData
                 [SysfsLeds.mkEntry 4 255; SysfsLeds.mkEntry 5 1] 2 2 in
  (0 <= 0 < 32 /\ Z.testbit (mask A) 0 = true /\ Z.testbit (mask B) 0 = true)
  /\ SysfsLeds.well_formed board
  /\ 0 <= 0 < SysfsLeds.entries_count board
  /\ (exists data' w',
        handle_all (Wiimote.handle_message 1 2 4 8) [A; B]
          (Wiimote.mkData 7 0) (mkWorld [] [])
        = Returned data' w'
        /\ Wiimote.shadow data' 0 = false)
  /\ (exists tr',
        handle_all SysfsLeds.handle_message [A; B] board (mkWorld [] [])
        = Returned board (mkWorld [] tr')
        /\ last_write 4 tr' = Some (decimal 0 ++ nl))
  /\ (exists tr',
        handle_all Airos.handle_message [A; B] (Airos.mkData 3) (mkWorld [] [])
        = Returned (Airos.mkData 3) (mkWorld [] tr')
        /\ Airos.pins_of 3 tr' 0 = Some (false, false)).
Proof.
  intros A B board.
  assert (H0 : 0 <= 0 < 32) by lia.
  assert (Hwf : SysfsLeds.well_formed board).
  { unfold SysfsLeds.well_formed, board. simpl. split; [ lia | ].
    split; [ lia | ].
    repeat constructor; simpl; intuition discriminate. }
  assert (Hi : 0 <= 0 < SysfsLeds.entries_count board) by (simpl; lia).
  split; [ repeat split; lia | ].
  split; [ exact Hwf | ]. split; [ exact Hi | ].
  destruct last_command_wins as [Hwii [Hsys Hair]].
  split; [ | split ].
  - destruct (Hwii 1 2 4 8 (Wiimote.mkData 7 0) A B 0 (mkWorld [] [])
                H0 eq_refl eq_refl) as [data' [w' [Hrun [Hshadow _]]]].
    exists data', w'. split; [ exact Hrun | exact Hshadow ].
  - destruct (Hsys board A B 0 [] Hwf Hi eq_refl eq_refl) as [tr' [Hrun Hlast]].
    exists tr'. split; [ exact Hrun | exact Hlast ].
  - destruct (Hair (Airos.mkData 3) A B 0 [] H0 eq_refl eq_refl)
      as [tr' [Hrun Hpin]].
    exists tr'. split; [ exact Hrun | exact Hpin ].
Defined.

End Sequences.

(* ================================================================== *)
(** * Further properties *)

(* ------------------------------------------------------------------ *)
(** ** The codec, the loop and the socket *)

Section ServerMore.
Import Server.

(** X1.  Decoding does not depend on the byte order of the host: the
    unaligned load and [htonl] cancel out on either kind of machine. *)
Theorem decode_host_independent a :
  decode LittleEndian a = decode BigEndian a.
Proof.
  destruct a as [payload | ]; [ | reflexivity ].
  rewrite !decode_datagram. reflexivity.
Qed.

Lemma byte_val_inj b c : byte_val b = byte_val c -> b = c.
Proof.
  unfold byte_val. intros H. apply N2Z.inj in H.
  pose proof (Byte.of_to_N b) as Hb. pose proof (Byte.of_to_N c) as Hc.
  rewrite H in Hb. congruence.
Qed.

Lemma be32_inj a0 a1 a2 a3 b0 b1 b2 b3 :
  0 <= a0 < 256 -> 0 <= a1 < 256 -> 0 <= a2 < 256 -> 0 <= a3 < 256 ->
  0 <= b0 < 256 -> 0 <= b1 < 256 -> 0 <= b2 < 256 -> 0 <= b3 < 256 ->
  be32 a0 a1 a2 a3 = be32 b0 b1 b2 b3 ->
  a0 = b0 /\ a1 = b1 /\ a2 = b2 /\ a3 = b3.
Proof. unfold be32. lia. Qed.

Lemma nine_bytes (l : list byte) :
  List.length l = 9%nat ->
  exists c0 c1 c2 c3 c4 c5 c6 c7 c8, l = [c0; c1; c2; c3; c4; c5; c6; c7; c8].
Proof.
  intros H.
  do 9 (destruct l as [ | ? l]; [ discriminate | ]).
  destruct l; [ | discriminate ].
  do 9 eexists. reflexivity.
Qed.

Lemma decode_some_length e payload packet :
  decode e (Datagram payload) = Some packet ->
  List.length (firstn 9 payload) = 9%nat.
Proof.
  rewrite decode_datagram.
  destruct (Z.eqb_spec (Z.of_nat (List.length (firstn 9 payload))) 9);
    [ lia | discriminate ].
Qed.

(** X2.  Decoding loses nothing: two datagrams that decode to the same
    packet have the same first nine bytes. *)
Theorem decode_injective e p q packet :
  decode e (Datagram p) = Some packet ->
  decode e (Datagram q) = Some packet ->
  firstn 9 p = firstn 9 q.
Proof.
  intros Hp Hq.
  pose proof (decode_some_length e p packet Hp) as Lp.
  pose proof (decode_some_length e q packet Hq) as Lq.
  rewrite decode_datagram in Hp, Hq.
  destruct (nine_bytes _ Lp) as [a0 [a1 [a2 [a3 [a4 [a5 [a6 [a7 [a8 Ep]]]]]]]]].
  destruct (nine_bytes _ Lq) as [b0 [b1 [b2 [b3 [b4 [b5 [b6 [b7 [b8 Eq]]]]]]]]].
  rewrite Ep in *. rewrite Eq in *.
  unfold byte_at in Hp, Hq. cbn [nth] in Hp, Hq.
  repeat match type of Hp with
         | context [if ?c then _ else _] => destruct c; [ discriminate | ]
         end.
  repeat match type of Hq with
         | context [if ?c then _ else _] => destruct c; [ discriminate | ]
         end.
  rewrite <- Hq in Hp. injection Hp as H0 Hm Hv.
  apply be32_inj in Hm; try apply byte_val_range.
  apply be32_inj in Hv; try apply byte_val_range.
  destruct Hm as [M1 [M2 [M3 M4]]]. destruct Hv as [V1 [V2 [V3 V4]]].
  apply byte_val_inj in H0, M1, M2, M3, M4, V1, V2, V3, V4.
  congruence.
Qed.

Lemma decode_injective_witness :
  let p := [x01; x00; x00; x00; x03; x00; x00; x00; x01; xff] in
  let q := [x01; x00; x00; x00; x03; x00; x00; x00; x01] in
  decode LittleEndian (Datagram p) = Some (mkPacket 1 3 1)
  /\ decode LittleEndian (Datagram q) = Some (mkPacket 1 3 1)
  /\ firstn 9 p = firstn 9 q.
Proof.
  intros p q. split; [ reflexivity | ]. split; [ reflexivity | ].
  exact (decode_injective LittleEndian p q (mkPacket 1 3 1) eq_refl eq_refl).
Defined.

(** X3.  The loop hands the handler the packets of the valid
    datagrams, in arrival order, and nothing else. *)
Theorem serve_in_arrival_order e (opaque_t : Type)
    (handler : opaque_t -> ledp_packet -> io opaque_t) arrivals opaque w :
  serve e handler arrivals opaque w
  = handle_all handler (decoded e arrivals) opaque w
  /\ (List.length (decoded e arrivals) <= List.length arrivals)%nat.
Proof.
  split; [ apply serve_handle_all | ].
  induction arrivals as [ | a rest IH]; [ apply Nat.le_refl | ].
  cbn [decoded List.length]. destruct (decode e a); cbn [List.length]; lia.
Qed.

(** X4.  Serving two stretches of arrivals one after the other is
    serving their concatenation; once the handler has aborted, no later
    datagram is handled. *)
Theorem serve_app e (opaque_t : Type)
    (handler : opaque_t -> ledp_packet -> io opaque_t) xs ys opaque w :
  serve e handler (xs ++ ys)%list opaque w
  = (opaque' <- serve e handler xs opaque ;; serve e handler ys opaque') w.
Proof.
  revert opaque w. induction xs as [ | a rest IH]; intros opaque w.
  - reflexivity.
  - cbn [serve app]. destruct (decode e a) as [packet | ].
    + unfold bind. destruct (handler opaque packet w) as [o1 w1 | w1 | w1];
        [ | reflexivity | reflexivity ].
      rewrite IH. reflexivity.
    + apply IH.
Qed.

Lemma bind_loop_first addresses : forall fds w,
  (forall a, In a addresses -> ai_close a = 0) ->
  (forall a, In a addresses -> ~ In (ai_socket a) fds) ->
  bind_loop addresses fds w
  = Returned
      match find bindable addresses with
      | Some a => (Some (ai_socket a), ai_socket a :: fds)
      | None => (None, fds)
      end w.
Proof.
  induction addresses as [ | a rest IH]; intros fds w Hclose Hfresh.
  - reflexivity.
  - cbn [bind_loop find]. unfold bindable at 1.
    destruct (Z.eqb_spec (ai_socket a) (-1)) as [Hs | Hs]; cbn [negb andb].
    + apply IH; intros b Hb; [ apply Hclose | apply Hfresh ]; right; exact Hb.
    + destruct (Z.eqb_spec (ai_bind a) 0) as [Hb | Hb].
      * reflexivity.
      * rewrite (Hclose a (or_introl eq_refl)). cbn [Z.eqb].
        unfold bind, assert. cbn [remove].
        destruct (Z.eq_dec (ai_socket a) (ai_socket a)) as [_ | Hne];
          [ | contradiction ].
        rewrite notin_remove by (apply Hfresh; left; reflexivity).
        apply IH; intros b Hin; [ apply Hclose | apply Hfresh ]; right; exact Hin.
Qed.

(** X5.  [__initialize_socket] returns the socket of the first address
    on which [socket] and [bind] both succeed, having closed every socket
    it could not bind: the descriptor table gains that socket only.  With
    no such address it prints its message and returns -1, the table
    being as before. *)
Theorem initialize_socket_first_bindable getaddrinfo port addresses fds w :
  getaddrinfo port = Some addresses ->
  (forall a, In a addresses -> ai_close a = 0) ->
  (forall a, In a addresses -> ~ In (ai_socket a) fds) ->
  __initialize_socket getaddrinfo port fds w
  = match find bindable addresses with
    | Some a => Returned (ai_socket a, ai_socket a :: fds) w
    | None =>
        Returned (-1, fds)
          (mkWorld (returns w)
             (EvStderr ("Couldn't bind socket" ++ nl) :: trace w))
    end.
Proof.
  intros Hget Hclose Hfresh. unfold __initialize_socket. rewrite Hget.
  unfold bind. rewrite (bind_loop_first addresses fds w Hclose Hfresh).
  destruct (find bindable addresses); reflexivity.
Qed.

Lemma initialize_socket_first_bindable_witness :
  let addresses := [mkAddr (-1) 0 0; mkAddr 4 (-1) 0; mkAddr 5 0 0] in
  __initialize_socket (fun _ => Some addresses) DEFAULT_PORT_STRING [0; 1; 2]
    (mkWorld [] [])
  = Returned (5, [5; 0; 1; 2]) (mkWorld [] []).
Proof.
  intros addresses.
  refine (initialize_socket_first_bindable (fun _ => Some addresses)
            DEFAULT_PORT_STRING addresses [0; 1; 2] (mkWorld [] [])
            eq_refl _ _).
  - intros a [<- | [<- | [<- | []]]]; reflexivity.
  - intros a [<- | [<- | [<- | []]]]; cbn; intuition discriminate.
Defined.

End ServerMore.

(* ------------------------------------------------------------------ *)
(** ** The Wiimote server: sequences and [main] *)

Section WiimoteMore.
Import Server Wiimote.
Variables f1 f2 f3 f4 : Z.

Lemma to_int_range z : - 2 ^ 31 <= Int.to_int z < 2 ^ 31.
Proof.
  unfold Int.to_int. pose proof (Z.mod_pos_bound z (2 ^ 32)).
  destruct (Z.ltb_spec (z mod 2 ^ 32) (2 ^ 31)); lia.
Qed.

Lemma to_int_ext a b :
  (forall i, 0 <= i < 32 -> Z.testbit a i = Z.testbit b i) ->
  Int.to_int a = Int.to_int b.
Proof.
  intros H. unfold Int.to_int.
  replace (b mod 2 ^ 32) with (a mod 2 ^ 32); [ reflexivity | ].
  apply Z.bits_inj'. intros n Hn.
  destruct (Z.ltb_spec n 32).
  - rewrite !Z.mod_pow2_bits_low by lia. apply H. lia.
  - rewrite !Z.mod_pow2_bits_high by lia. reflexivity.
Qed.

Lemma update_leds_idempotent l p :
  update_leds (update_leds l p) p = update_leds l p.
Proof.
  unfold update_leds at 1 3. apply to_int_ext. intros i Hi.
  rewrite !Z.lor_spec, !to_uint32_testbit, !to_int_testbit by assumption.
  rewrite !Z.land_spec, !to_uint32_testbit, !not32_testbit by assumption.
  rewrite update_leds_testbit by assumption.
  destruct (Z.testbit l i), (Z.testbit (mask p) i), (Z.testbit (values p) i);
    reflexivity.
Qed.

(** X6.  A command applied twice leaves the shadow register as after
    once, and the second report carries the same flags as the first. *)
Theorem wiimote_command_twice data packet w :
  exists w',
    handle_all (handle_message f1 f2 f3 f4) [packet; packet] data w
    = Returned (mkData (wiimote data) (update_leds (leds data) packet)) w'
    /\ reports (trace w')
       = (reports (trace w)
          ++ [combined_flags f1 f2 f3 f4 (update_leds (leds data) packet);
              combined_flags f1 f2 f3 f4 (update_leds (leds data) packet)])%list.
Proof.
  destruct (handle_all_shadow f1 f2 f3 f4 [packet; packet] data w)
    as [w' [Hrun [Hrep _]]].
  exists w'. cbn [fold_left flags_along] in Hrun, Hrep.
  rewrite update_leds_idempotent in Hrun, Hrep. split; assumption.
Qed.

Lemma wiimote_serve_reports e arrivals data w :
  exists w',
    serve e (handle_message f1 f2 f3 f4) arrivals data w
    = Returned (mkData (wiimote data)
                  (fold_left update_leds (decoded e arrivals) (leds data))) w'
    /\ reports (trace w')
       = (reports (trace w)
          ++ flags_along f1 f2 f3 f4 (leds data) (decoded e arrivals))%list
    /\ List.length (reports (trace w'))
       = (List.length (reports (trace w))
          + List.length (decoded e arrivals))%nat.
Proof.
  destruct (handle_all_shadow f1 f2 f3 f4 (decoded e arrivals) data w)
    as [w' [Hrun [Hrep _]]].
  exists w'. rewrite serve_handle_all. split; [ exact Hrun | ].
  split; [ exact Hrep | ].
  rewrite Hrep, length_app. f_equal.
  clear. generalize (leds data).
  induction (decoded e arrivals) as [ | p rest IH]; intros l;
    [ reflexivity | cbn [flags_along List.length]; rewrite IH; reflexivity ].
Qed.

(** X7.  The Wiimote server never stops on a report that fails: after
    any arrivals it has returned, the shadow register is the fold of the
    decoded packets, and one report was handed to the Wiimote per valid
    datagram. *)
Theorem wiimote_serve_never_stops e arrivals data w :
  exists w',
    serve e (handle_message f1 f2 f3 f4) arrivals data w
    = Returned (mkData (wiimote data)
                  (fold_left update_leds (decoded e arrivals) (leds data))) w'
    /\ reports (trace w')
       = (reports (trace w)
          ++ flags_along f1 f2 f3 f4 (leds data) (decoded e arrivals))%list
    /\ List.length (reports (trace w'))
       = (List.length (reports (trace w))
          + List.length (decoded e arrivals))%nat.
Proof. apply wiimote_serve_reports. Qed.

(** X8.  For a command whose values bits all lie inside its mask, the
    Wiimote server keeps the contract: an addressed entry takes its
    values bit and every other entry stays as it was. *)
Theorem wiimote_masked_when_values_in_mask data packet w :
  (forall i, 0 <= i < 32 ->
     Z.testbit (values packet) i = true -> Z.testbit (mask packet) i = true) ->
  exists data' w',
    handle_message f1 f2 f3 f4 data packet w = Returned data' w'
    /\ forall i, 0 <= i < 32 ->
         shadow data' i
         = if Z.testbit (mask packet) i then Z.testbit (values packet) i
           else shadow data i.
Proof.
  intros Hin.
  destruct (handle_message_reports f1 f2 f3 f4 data packet w) as [w' [Hrun _]].
  do 2 eexists. split; [ exact Hrun | ].
  intros i Hi. unfold shadow. cbn [leds].
  rewrite update_leds_testbit by assumption.
  specialize (Hin i Hi).
  destruct (Z.testbit (mask packet) i), (Z.testbit (values packet) i),
    (Z.testbit (leds data) i); try reflexivity.
  all: discriminate (Hin eq_refl).
Qed.

(** X9.  With more than two arguments, an address [str2ba] refuses, or
    a port that [atoi] reads as 0 or less or as 65536 or more, [main]
    prints the usage line and returns 1: it neither connects to a
    Wiimote nor serves. *)
Theorem wiimote_main_bad_arguments e pf bound argv arrivals w :
  bad_arguments pf argv ->
  main e f1 f2 f3 f4 pf bound argv arrivals w
  = Returned (Some 1)
      (mkWorld (returns w)
         (EvStderr (usage (nth 0 argv EmptyString)) :: trace w)).
Proof.
  intros Hbad. unfold main.
  destruct (Z.ltb_spec 3 (Z.of_nat (List.length argv))) as [ | Hmax];
    [ reflexivity | ].
  destruct Hbad as [Hmany | [[H2 Haddr] | [H3 Hport]]]; [ lia | | ].
  - destruct (Z.leb_spec 2 (Z.of_nat (List.length argv))); [ | lia ].
    rewrite Haddr. reflexivity.
  - destruct (if 2 <=? Z.of_nat (List.length argv)
              then str2ba pf (nth 1 argv EmptyString)
              else Some (BDADDR_ANY pf)) as [addr | ]; [ | reflexivity ].
    destruct (Z.leb_spec 3 (Z.of_nat (List.length argv))); [ | lia ].
    replace ((atoi pf (nth 2 argv EmptyString) <=? 0)
             || (65536 <=? atoi pf (nth 2 argv EmptyString))) with true;
      [ reflexivity | ].
    symmetry. apply orb_true_iff. rewrite Z.leb_le, Z.leb_le. exact Hport.
Qed.

(** X10.  With arguments it accepts, a Wiimote that answers and a
    socket, [main] is still serving after any arrivals; the shadow
    register starts all off, so the flags it writes are those of the
    decoded packets applied to 0. *)
Theorem wiimote_main_serves e pf bound argv arrivals w addr handle addr' :
  ~ bad_arguments pf argv ->
  (if (2 <=? List.length argv)%nat then str2ba pf (nth 1 argv EmptyString)
   else Some (BDADDR_ANY pf)) = Some addr ->
  cwiid_open pf addr = Some (handle, addr') ->
  fst (ba2str pf addr') <> 0 ->
  bound (port_of argv) <> -1 ->
  exists w',
    main e f1 f2 f3 f4 pf bound argv arrivals w = Returned None w'
    /\ reports (trace w')
       = (reports (trace w) ++ flags_along f1 f2 f3 f4 0 (decoded e arrivals))%list.
Proof.
  intros Hgood Haddr Hopen Hstr Hbound. unfold main.
  assert (Hmax : (List.length argv <= 3)%nat).
  { destruct (Nat.le_gt_cases (List.length argv) 3) as [ | Hgt]; [ assumption | ].
    exfalso. apply Hgood. left. exact Hgt. }
  destruct (Z.ltb_spec 3 (Z.of_nat (List.length argv))); [ lia | ].
  replace (2 <=? Z.of_nat (List.length argv))
    with (2 <=? List.length argv)%nat
    by (destruct (Nat.leb_spec 2 (List.length argv)),
          (Z.leb_spec 2 (Z.of_nat (List.length argv))); try reflexivity; lia).
  rewrite Haddr.
  replace (3 <=? Z.of_nat (List.length argv))
    with (3 <=? List.length argv)%nat
    by (destruct (Nat.leb_spec 3 (List.length argv)),
          (Z.leb_spec 3 (Z.of_nat (List.length argv))); try reflexivity; lia).
  fold (port_of argv).
  assert (Hport : (3 <=? List.length argv)%nat
                  && ((atoi pf (nth 2 argv EmptyString) <=? 0)
                      || (65536 <=? atoi pf (nth 2 argv EmptyString))) = false).
  { destruct (Nat.leb_spec 3 (List.length argv)) as [H3 | ]; [ | reflexivity ].
    cbn [andb]. apply orb_false_iff. rewrite Z.leb_gt, Z.leb_gt.
    destruct (Z.le_gt_cases (atoi pf (nth 2 argv EmptyString)) 0) as [Hle | ];
      [ exfalso; apply Hgood; right; right; auto | ].
    destruct (Z.le_gt_cases 65536 (atoi pf (nth 2 argv EmptyString))) as [Hge | ];
      [ exfalso; apply Hgood; right; right; auto | ].
    lia. }
  rewrite Hport. unfold bind at 1. unfold emit at 1. rewrite Hopen.
  destruct (ba2str pf addr') as [status addr_string] eqn:Hba. cbn [fst] in Hstr.
  unfold bind at 1. unfold assert at 1.
  destruct (Z.eqb_spec status 0); [ contradiction | ]. cbn [negb].
  unfold bind at 1. unfold emit at 1.
  unfold start_ledp_server, bind.
  destruct (Z.eqb_spec (bound (port_of argv)) (-1)); [ contradiction | ].
  match goal with
  | |- context [serve e _ arrivals (mkData handle 0) ?v] =>
      destruct (wiimote_serve_reports e arrivals (mkData handle 0) v)
        as [w' [Hrun [Hrep _]]]
  end.
  rewrite Hrun. exists w'. split; [ reflexivity | ].
  rewrite Hrep. reflexivity.
Qed.

End WiimoteMore.

Lemma wiimote_masked_when_values_in_mask_witness :
  exists data' w',
    Wiimote.handle_message 1 2 4 8 (Wiimote.mkData 7 3) (Server.mkPacket 1 1 0)
      (mkWorld [] [])
    = Returned data' w'
    /\ Wiimote.shadow data' 0 = false /\ Wiimote.shadow data' 1 = true.
Proof.
  destruct (wiimote_masked_when_values_in_mask 1 2 4 8 (Wiimote.mkData 7 3)
              (Server.mkPacket 1 1 0) (mkWorld [] []))
    as [data' [w' [Hrun Hbits]]].
  - intros i _ H. cbn in H. rewrite Z.bits_0 in H. discriminate.
  - exists data', w'. split; [ exact Hrun | ].
    split; [ apply (Hbits 0); lia | apply (Hbits 1); lia ].
Defined.

Lemma wiimote_main_bad_arguments_witness :
  Wiimote.bad_arguments Wiimote.paired ["wiimote"; "any"; "5021"; "extra"]
  /\ Wiimote.main Server.LittleEndian 1 2 4 8 Wiimote.paired (fun _ => 3)
       ["wiimote"; "any"; "5021"; "extra"] [] (mkWorld [] [])
     = Returned (Some 1) (mkWorld [] [EvStderr (Wiimote.usage "wiimote")]).
Proof.
  assert (Hbad : Wiimote.bad_arguments Wiimote.paired
                   ["wiimote"; "any"; "5021"; "extra"])
    by (left; cbn; lia).
  split; [ exact Hbad | ].
  exact (wiimote_main_bad_arguments 1 2 4 8 Server.LittleEndian Wiimote.paired
           (fun _ => 3) ["wiimote"; "any"; "5021"; "extra"] [] (mkWorld [] [])
           Hbad).
Defined.

Lemma wiimote_main_serves_witness :
  exists w',
    Wiimote.main Server.LittleEndian 1 2 4 8 Wiimote.paired (fun _ => 3)
      ["wiimote"] [Server.Datagram [x01; x00; x00; x00; x03; x00; x00; x00; x01]]
      (mkWorld [] [])
    = Returned None w'
    /\ Wiimote.reports (trace w') = [1].
Proof.
  destruct (wiimote_main_serves 1 2 4 8 Server.LittleEndian Wiimote.paired
              (fun _ => 3) ["wiimote"]
              [Server.Datagram [x01; x00; x00; x00; x03; x00; x00; x00; x01]]
              (mkWorld [] []) 0 7 1)
    as [w' [Hrun Hrep]].
  - intros [H | [[H _] | [H _]]]; cbn in H; lia.
  - reflexivity.
  - reflexivity.
  - cbn. discriminate.
  - cbn. discriminate.
  - exists w'. split; [ exact Hrun | exact Hrep ].
Defined.

(* ------------------------------------------------------------------ *)
(** ** The AirOS server: the text, the write and [main] *)

Section AirosMore.
Import Server Airos.

Lemma lines_from_ext p q n : forall i,
  0 <= i -> i + Z.of_nat n <= 32 ->
  (forall k, 0 <= k < 32 -> Z.testbit (mask p) k = Z.testbit (mask q) k) ->
  (forall k, 0 <= k < 32 -> Z.testbit (mask p) k = true ->
     Z.testbit (values p) k = Z.testbit (values q) k) ->
  lines_from p i n = lines_from q i n.
Proof.
  induction n as [ | n IH]; intros i Hi Hn Hm Hv.
  - reflexivity.
  - unfold lines_from in *. cbn [indices filter].
    rewrite <- (Hm i) by lia.
    destruct (Z.testbit (mask p) i) eqn:Hb.
    + cbn [map]. rewrite <- (Hv i) by (assumption || lia).
      f_equal. apply IH; assumption || lia.
    + apply IH; assumption || lia.
Qed.

(** X11.  The AirOS handler reads the values of a command through its
    mask only, and only bits 0 to 31: two commands with the same mask
    bits and the same values bits where the mask is set do the same. *)
Theorem airos_unmasked_values_ignored data p q w :
  (forall k, 0 <= k < 32 -> Z.testbit (mask p) k = Z.testbit (mask q) k) ->
  (forall k, 0 <= k < 32 -> Z.testbit (mask p) k = true ->
     Z.testbit (values p) k = Z.testbit (values q) k) ->
  handle_message data p w = handle_message data q w.
Proof.
  intros Hm Hv. rewrite !handle_message_write, !addressed_lines_eq.
  rewrite (lines_from_ext p q 32 0 ltac:(lia) ltac:(lia) Hm Hv). reflexivity.
Qed.

Lemma addressed_budget_step packet i n :
  addressed_budget packet i (S n)
  = (if Z.testbit (mask packet) i then line_budget i else 0)
    + addressed_budget packet (i + 1) n.
Proof.
  unfold addressed_budget. cbn [indices filter].
  destruct (Z.testbit (mask packet) i); reflexivity.
Qed.

Lemma lines_from_exact_length packet n : forall i,
  0 <= i -> i + Z.of_nat n <= 32 ->
  Z.of_nat (String.length (join (lines_from packet i n)))
  = addressed_budget packet i n.
Proof.
  induction n as [ | n IH]; intros i Hi Hn.
  - reflexivity.
  - rewrite addressed_budget_step. specialize (IH (i + 1) ltac:(lia) ltac:(lia)).
    unfold lines_from in *. cbn [indices filter].
    destruct (Z.testbit (mask packet) i).
    + cbn [map]. rewrite join_cons, append_length, Nat2Z.inj_add.
      rewrite command_line_length by (auto using bit_value_cases; lia). lia.
    + lia.
Qed.

(** X12.  The text of a command is 6 bytes for each addressed pin of
    0-9 plus 7 bytes for each addressed pin of 10-31, exactly. *)
Theorem airos_text_length packet data tr :
  exists text,
    handle_message data packet (mkWorld [] tr)
    = Returned data (mkWorld [] (EvWrite (control_fd data) text :: tr))
    /\ Z.of_nat (String.length text) = addressed_budget packet 0 32.
Proof.
  exists (join (addressed_lines packet)). split.
  - apply handle_message_success.
  - rewrite addressed_lines_eq. apply lines_from_exact_length; lia.
Qed.

(** X13.  The one [write] decides the outcome: when it returns the
    length of the text the handler returns; on any other value, a short
    write included, the [assert] aborts the server, the control file
    having received what the call transferred. *)
Theorem airos_write_result_decides data packet r rs tr :
  let text := join (addressed_lines packet) in
  let count := Z.of_nat (String.length text) in
  handle_message data packet (mkWorld (r :: rs) tr)
  = if r =? count
    then Returned data (mkWorld rs (EvWrite (control_fd data) text :: tr))
    else
      Aborted
        (mkWorld rs
           (if (0 <=? r) && (r <? count)
            then EvWrite (control_fd data) (substring 0 (Z.to_nat r) text) :: tr
            else tr)).
Proof.
  intros text count. rewrite handle_message_write. cbv zeta.
  fold text. fold count.
  unfold bind, write, assert, ret. cbn [returns trace].
  destruct (Z.eqb_spec r count) as [-> | Hne].
  - destruct (Z.leb_spec 0 count); [ | lia ].
    rewrite Z.leb_refl. cbn [andb]. rewrite Z.eqb_refl.
    unfold count at 1. rewrite substring_prefix. reflexivity.
  - destruct (Z.leb_spec 0 r); cbn [andb].
    + destruct (Z.leb_spec r count), (Z.ltb_spec r count); try lia.
      * destruct (Z.eqb_spec r count); [ contradiction | reflexivity ].
      * destruct (Z.eqb_spec (-1) count); [ lia | reflexivity ].
    + destruct (Z.eqb_spec (-1) count); [ lia | reflexivity ].
Qed.

Lemma lines_from_none packet n : forall i,
  0 <= i -> i + Z.of_nat n <= 32 ->
  (forall k, 0 <= k < 32 -> Z.testbit (mask packet) k = false) ->
  lines_from packet i n = [].
Proof.
  induction n as [ | n IH]; intros i Hi Hn Hm.
  - reflexivity.
  - unfold lines_from in *. cbn [indices filter]. rewrite Hm by lia.
    apply IH; assumption || lia.
Qed.

(** X14.  A command that addresses none of the pins 0-31 still makes
    its [write] call, of zero bytes, and no pin changes. *)
Theorem airos_empty_mask data packet tr :
  (forall k, 0 <= k < 32 -> Z.testbit (mask packet) k = false) ->
  handle_message data packet (mkWorld [] tr)
  = Returned data (mkWorld [] (EvWrite (control_fd data) EmptyString :: tr))
  /\ forall q, pins_of (control_fd data)
                 (EvWrite (control_fd data) EmptyString :: tr) q
               = pins_of (control_fd data) tr q.
Proof.
  intros Hm. split.
  - rewrite handle_message_success, addressed_lines_eq.
    rewrite (lines_from_none packet 32 0) by (assumption || lia). reflexivity.
  - intros q. cbn [pins_of]. rewrite Z.eqb_refl. reflexivity.
Qed.

Lemma system_led_lines_outside packet n : forall i p q,
  0 <= i -> i + Z.of_nat n <= 32 ->
  ~ (0 <= q < 32) ->
  system_led (join (lines_from packet i n)) [] None p q = p q.
Proof.
  intros i p q Hi Hn Hq. rewrite system_led_lines by assumption.
  destruct (Z.leb_spec i q), (Z.ltb_spec q (i + Z.of_nat n));
    try reflexivity. lia.
Qed.

Lemma airos_pins_all data packet tr :
  exists tr',
    handle_message data packet (mkWorld [] tr) = Returned data (mkWorld [] tr')
    /\ forall q,
         pins_of (control_fd data) tr' q
         = if (0 <=? q) && (q <? 32) && Z.testbit (mask packet) q
           then Some (Z.testbit (values packet) q, Z.testbit (values packet) q)
           else pins_of (control_fd data) tr q.
Proof.
  eexists. split; [ apply handle_message_success | ].
  intros q. cbn [pins_of]. rewrite Z.eqb_refl, addressed_lines_eq.
  apply (system_led_lines packet 32 0); lia.
Qed.

Lemma airos_handle_all_pins data packets : forall tr,
  exists tr',
    handle_all handle_message packets data (mkWorld [] tr)
    = Returned data (mkWorld [] tr')
    /\ forall q, 0 <= q < 32 ->
         pins_of (control_fd data) tr' q
         = match last_addressed q packets with
           | Some b => Some (b, b)
           | None => pins_of (control_fd data) tr q
           end.
Proof.
  induction packets as [ | packet rest IH]; intros tr.
  - exists tr. split; reflexivity.
  - destruct (airos_pins_all data packet tr) as [tr1 [H1 P1]].
    destruct (IH tr1) as [tr' [Hrun Hpins]].
    exists tr'. split.
    + cbn [handle_all]. unfold bind. rewrite H1. exact Hrun.
    + intros q Hq. rewrite (Hpins q Hq). cbn [last_addressed].
      destruct (last_addressed q rest); [ reflexivity | ].
      rewrite P1.
      destruct (Z.leb_spec 0 q); [ | lia ].
      destruct (Z.ltb_spec q 32); [ | lia ].
      cbn [andb]. destruct (Z.testbit (mask packet) q); reflexivity.
Qed.

(** X15.  After a command whose write succeeds every pin is accounted
    for: an addressed pin of 0-31 holds the wanted bit twice, and any
    other pin, outside 0-31 too, is as it was. *)
Theorem airos_pins_frame data packet tr :
  exists tr',
    handle_message data packet (mkWorld [] tr) = Returned data (mkWorld [] tr')
    /\ forall q,
         pins_of (control_fd data) tr' q
         = if (0 <=? q) && (q <? 32) && Z.testbit (mask packet) q
           then Some (Z.testbit (values packet) q, Z.testbit (values packet) q)
           else pins_of (control_fd data) tr q.
Proof. apply airos_pins_all. Qed.

(** X16.  [main] of the AirOS server, the control file and the socket
    being open and every write succeeding: after any arrivals it is
    still serving, and each pin of 0-31 holds the bit of the last valid
    datagram that addressed it, or its state at startup when none did. *)
Theorem airos_main_last_addressed e control sock arrivals tr :
  control <> -1 -> sock <> -1 ->
  exists tr',
    main e control sock arrivals (mkWorld [] tr) = Returned None (mkWorld [] tr')
    /\ forall q, 0 <= q < 32 ->
         pins_of control tr' q
         = match last_addressed q (decoded e arrivals) with
           | Some b => Some (b, b)
           | None => pins_of control tr q
           end.
Proof.
  intros Hc Hs.
  destruct (airos_handle_all_pins (mkData control) (decoded e arrivals) tr)
    as [tr' [Hrun Hpins]].
  exists tr'. split; [ | exact Hpins ].
  unfold main, bind, assert, start_ledp_server.
  destruct (Z.eqb_spec control (-1)); [ contradiction | ]. cbn [negb].
  destruct (Z.eqb_spec sock (-1)); [ contradiction | ].
  unfold bind. rewrite serve_handle_all, Hrun. reflexivity.
Qed.

End AirosMore.

Lemma airos_unmasked_values_ignored_witness :
  Airos.handle_message (Airos.mkData 3) (Server.mkPacket 1 0 5) (mkWorld [] [])
  = Airos.handle_message (Airos.mkData 3) (Server.mkPacket 1 0 9) (mkWorld [] []).
Proof.
  apply airos_unmasked_values_ignored.
  - intros k _. reflexivity.
  - intros k _ H. cbn in H. rewrite Z.bits_0 in H. discriminate.
Defined.

Lemma airos_empty_mask_witness :
  Airos.handle_message (Airos.mkData 3) (Server.mkPacket 1 0 7) (mkWorld [] [])
  = Returned (Airos.mkData 3) (mkWorld [] [EvWrite 3 EmptyString]).
Proof.
  refine (proj1 (airos_empty_mask (Airos.mkData 3) (Server.mkPacket 1 0 7) [] _)).
  intros k _. apply Z.bits_0.
Defined.

Lemma airos_main_last_addressed_witness :
  exists tr',
    Airos.main Server.BigEndian 3 4
      [Server.Datagram [x01; x00; x00; x00; x01; x00; x00; x00; x01];
       Server.Datagram [x01; x00; x00; x00; x01; x00; x00; x00; x00]]
      (mkWorld [] [])
    = Returned None (mkWorld [] tr')
    /\ Airos.pins_of 3 tr' 0 = Some (false, false).
Proof.
  destruct (airos_main_last_addressed Server.BigEndian 3 4
              [Server.Datagram [x01; x00; x00; x00; x01; x00; x00; x00; x01];
               Server.Datagram [x01; x00; x00; x00; x01; x00; x00; x00; x00]]
              [])
    as [tr' [Hrun Hpins]]; [ discriminate | discriminate | ].
  exists tr'. split; [ exact Hrun | ].
  exact (Hpins 0 (conj (Z.le_refl 0) eq_refl)).
Defined.

(* ------------------------------------------------------------------ *)
(** ** The sysfs server: the handler *)

Section SysfsMore.
Import Server SysfsLeds.

Lemma handle_message_keeps_data data packet w data' w' :
  handle_message data packet w = Returned data' w' -> data' = data.
Proof.
  unfold handle_message, bind, ret.
  destruct (write_leds data packet _ 0 w); intros H; inversion H; reflexivity.
Qed.

(** X17.  Across a whole run of the sysfs server, whatever the [write]
    calls return and wherever it aborts, the control file of an LED that
    no valid datagram addresses receives nothing. *)
Theorem sysfs_unaddressed_led_never_written e data arrivals k w :
  well_formed data ->
  0 <= k < entries_count data ->
  (forall packet, In packet (decoded e arrivals) ->
     Z.testbit (mask packet) k = false) ->
  last_write (brightness_fd (entry_at data k))
    (trace (world_of (serve e handle_message arrivals data w)))
  = last_write (brightness_fd (entry_at data k)) (trace w).
Proof.
  intros Hwf Hk. rewrite serve_handle_all.
  revert w. induction (decoded e arrivals) as [ | packet rest IH]; intros w Hm.
  - reflexivity.
  - cbn [handle_all]. unfold bind.
    pose proof (sysfs_handle_masked data packet k w Hwf Hk
                  (Hm packet (or_introl eq_refl))) as Hone.
    destruct (handle_message data packet w) as [d1 w1 | w1 | w1] eqn:Hrun;
      cbn [world_of] in Hone |- *; [ | exact Hone | exact Hone ].
    rewrite (handle_message_keeps_data _ _ _ _ _ Hrun).
    rewrite IH by (intros p Hp; apply Hm; right; exact Hp).
    exact Hone.
Qed.

Lemma write_leds_trace data packet n : forall led tr,
  0 <= led -> led + Z.of_nat n <= 32 ->
  write_leds data packet n led (mkWorld [] tr)
  = Returned tt
      (mkWorld []
         (rev (map (led_write data packet)
                 (filter (fun i => Z.testbit (mask packet) i) (leds_from led n)))
          ++ tr)%list).
Proof.
  induction n as [ | n IH]; intros led tr Hled Hn.
  - reflexivity.
  - cbn [write_leds leds_from filter]. rewrite !test_u32_testbit by lia.
    destruct (Z.testbit (mask packet) led); cbn [negb].
    + unfold sprintf, bind, write, assert. cbn [returns trace].
      rewrite substring_prefix, Z.eqb_refl.
      rewrite IH by lia. cbn [map rev]. rewrite <- app_assoc. reflexivity.
    + apply IH; lia.
Qed.

(** X18.  When its writes succeed the sysfs handler makes one [write]
    per addressed LED among the mapped ones, in increasing index order,
    and none for an index at or above [entries_count]. *)
Theorem sysfs_writes_in_led_order data packet tr :
  0 <= entries_count data <= 32 ->
  handle_message data packet (mkWorld [] tr)
  = Returned data
      (mkWorld []
         (rev (map (led_write data packet)
                 (filter (fun i => Z.testbit (mask packet) i)
                    (leds_from 0 (Z.to_nat (entries_count data)))))
          ++ tr)%list).
Proof.
  intros Hc. unfold handle_message, bind.
  rewrite write_leds_trace by lia. reflexivity.
Qed.

Lemma write_leds_ext data p q n : forall led w,
  0 <= led -> led + Z.of_nat n <= 32 ->
  (forall k, led <= k < led + Z.of_nat n ->
     Z.testbit (mask p) k = Z.testbit (mask q) k) ->
  (forall k, led <= k < led + Z.of_nat n -> Z.testbit (mask p) k = true ->
     Z.testbit (values p) k = Z.testbit (values q) k) ->
  write_leds data p n led w = write_leds data q n led w.
Proof.
  induction n as [ | n IH]; intros led w Hled Hn Hm Hv.
  - reflexivity.
  - cbn [write_leds]. rewrite !test_u32_testbit by lia.
    rewrite <- (Hm led) by lia.
    destruct (Z.testbit (mask p) led) eqn:Hb; cbn [negb].
    + rewrite <- (Hv led) by (assumption || lia).
      unfold sprintf, bind.
      match goal with
      | |- context [write ?fd ?buf ?count w] =>
          destruct (write fd buf count w) as [r w1 | w1 | w1]; try reflexivity
      end.
      match goal with
      | |- context [assert ?c w1] =>
          destruct (assert c w1) as [u w2 | w2 | w2]; try reflexivity
      end.
      apply IH; try lia; intros k Hk; [ apply Hm | apply Hv ]; lia.
    + apply IH; try lia; intros k Hk; [ apply Hm | apply Hv ]; lia.
Qed.

(** X19.  The sysfs handler ignores what a command says about unmapped
    indices and the values of LEDs it does not address: two commands
    that agree on the rest do the same, whatever the writes return. *)
Theorem sysfs_unmapped_and_unmasked_bits_ignored data p q w :
  0 <= entries_count data <= 32 ->
  (forall k, 0 <= k < entries_count data ->
     Z.testbit (mask p) k = Z.testbit (mask q) k) ->
  (forall k, 0 <= k < entries_count data -> Z.testbit (mask p) k = true ->
     Z.testbit (values p) k = Z.testbit (values q) k) ->
  handle_message data p w = handle_message data q w.
Proof.
  intros Hc Hm Hv. unfold handle_message, bind.
  rewrite (write_leds_ext data p q (Z.to_nat (entries_count data)) 0 w);
    try lia; [ reflexivity | | ];
    intros k Hk; [ apply Hm | apply Hv ]; lia.
Qed.

Lemma write_leds_skip data packet m : forall n led w,
  0 <= led -> led + Z.of_nat m <= 32 ->
  (forall j, led <= j < led + Z.of_nat m -> Z.testbit (mask packet) j = false) ->
  write_leds data packet (m + n) led w
  = write_leds data packet n (led + Z.of_nat m) w.
Proof.
  induction m as [ | m IH]; intros n led w Hled Hm Hclear.
  - rewrite Z.add_0_r. reflexivity.
  - cbn [Nat.add write_leds]. rewrite test_u32_testbit by lia.
    rewrite Hclear by lia. cbn [negb].
    rewrite IH by (try lia; intros j Hj; apply Hclear; lia).
    f_equal. lia.
Qed.

(** X20.  The write for the first addressed LED failing or being
    short, the [assert] aborts the sysfs server there: no other LED is
    written, and that LED's file has received at most a prefix of its
    line. *)
Theorem sysfs_failed_write_aborts data packet k r rs tr :
  0 <= k < entries_count data ->
  entries_count data <= 32 ->
  (forall j, 0 <= j < k -> Z.testbit (mask packet) j = false) ->
  Z.testbit (mask packet) k = true ->
  r <> Z.of_nat (String.length (brightness_line data packet k)) ->
  handle_message data packet (mkWorld (r :: rs) tr)
  = Aborted
      (mkWorld rs
         (if (0 <=? r)
             && (r <? Z.of_nat (String.length (brightness_line data packet k)))
          then EvWrite (brightness_fd (entry_at data k))
                 (substring 0 (Z.to_nat r) (brightness_line data packet k)) :: tr
          else tr)).
Proof.
  intros Hk Hc Hclear Hset Hr. unfold handle_message, bind.
  replace (Z.to_nat (entries_count data))
    with (Z.to_nat k + S (Z.to_nat (entries_count data - k - 1)))%nat by lia.
  rewrite write_leds_skip by (try lia; intros j Hj; apply Hclear; lia).
  replace (0 + Z.of_nat (Z.to_nat k)) with k by lia.
  cbn [write_leds]. rewrite !test_u32_testbit by lia. rewrite Hset. cbn [negb].
  fold (brightness_line data packet k).
  set (line := brightness_line data packet k) in *.
  unfold sprintf, bind, write, assert. cbn [returns trace].
  destruct (Z.leb_spec 0 r); cbn [andb].
  - destruct (Z.leb_spec r (Z.of_nat (String.length line))),
      (Z.ltb_spec r (Z.of_nat (String.length line))); try lia.
    + destruct (Z.eqb_spec r (Z.of_nat (String.length line)));
        [ contradiction | reflexivity ].
    + destruct (Z.eqb_spec (-1) (Z.of_nat (String.length line)));
        [ lia | reflexivity ].
  - destruct (Z.eqb_spec (-1) (Z.of_nat (String.length line)));
      [ lia | reflexivity ].
Qed.

Lemma sysfs_handle_all_last data packets : forall tr,
  well_formed data ->
  exists tr',
    handle_all handle_message packets data (mkWorld [] tr)
    = Returned data (mkWorld [] tr')
    /\ forall k, 0 <= k < entries_count data ->
         last_write (brightness_fd (entry_at data k)) tr'
         = match last_addressed k packets with
           | Some b =>
               Some (decimal (if b then max_brightness (entry_at data k) else 0)
                     ++ nl)
           | None => last_write (brightness_fd (entry_at data k)) tr
           end.
Proof.
  induction packets as [ | packet rest IH]; intros tr Hwf.
  - exists tr. split; reflexivity.
  - destruct (sysfs_handle_success data packet tr Hwf) as [tr1 [H1 P1]].
    destruct (IH tr1 Hwf) as [tr' [Hrun Hlast]].
    exists tr'. split.
    + cbn [handle_all]. unfold bind. rewrite H1. exact Hrun.
    + intros k Hk. rewrite (Hlast k Hk). cbn [last_addressed].
      destruct (last_addressed k rest); [ reflexivity | ].
      rewrite (P1 k Hk). destruct (Z.testbit (mask packet) k); reflexivity.
Qed.

(** X21.  While its writes succeed the sysfs server is still serving
    after any arrivals, and the last line in the control file of each
    mapped LED is the one of the last valid datagram that addressed it:
    the maximum brightness for on, 0 for off. *)
Theorem sysfs_serve_last_addressed e data arrivals tr :
  well_formed data ->
  exists tr',
    serve e handle_message arrivals data (mkWorld [] tr)
    = Returned data (mkWorld [] tr')
    /\ forall k, 0 <= k < entries_count data ->
         last_write (brightness_fd (entry_at data k)) tr'
         = match last_addressed k (decoded e arrivals) with
           | Some b =>
               Some (decimal (if b then max_brightness (entry_at data k) else 0)
                     ++ nl)
           | None => last_write (brightness_fd (entry_at data k)) tr
           end.
Proof.
  intros Hwf. rewrite serve_handle_all.
  apply sysfs_handle_all_last. exact Hwf.
Qed.

End SysfsMore.

(* ------------------------------------------------------------------ *)
(** ** The sysfs server: the setup *)

Section SysfsSetupMore.
Import Server SysfsLeds.
Variable fs : sysfs.

Lemma set_entry_length k f a : List.length (set_entry k f a) = List.length a.
Proof.
  revert k. induction a as [ | x a IH]; intros k;
    destruct k; cbn [set_entry List.length]; rewrite ?IH; reflexivity.
Qed.

Lemma set_entry_app pre f x post :
  set_entry (List.length pre) f (pre ++ x :: post)%list
  = (pre ++ f x :: post)%list.
Proof.
  induction pre as [ | y pre IH]; cbn [List.length app set_entry];
    [ | rewrite IH ]; reflexivity.
Qed.

Lemma process_led_usable data name w pre post :
  usable fs name = true ->
  entries data = (pre ++ zero_entry :: post)%list ->
  Z.of_nat (List.length pre) = entries_count data ->
  entries_count data < 32 ->
  process_led fs data name w
  = Returned
      (0, mkData (pre ++ mkEntry (open_wronly fs (name ++ "/brightness"))
                           (scanned fs name) :: post)%list
            (entries_count data + 1) (entries_found data + 1)) w.
Proof.
  intros Huse Hent Hlen Hfree. unfold process_led, usable, scanned in *.
  destruct (Z.leb_spec 32 (entries_count data)); [ lia | ].
  destruct (scan_file fs (name ++ "/max_brightness")) as [[v | ] | ];
    try discriminate.
  destruct (Z.eqb_spec (open_wronly fs (name ++ "/brightness")) (-1));
    [ discriminate | ].
  rewrite Hent, <- Hlen, Nat2Z.id, !set_entry_app. reflexivity.
Qed.

Lemma process_leds_cons name rest data w :
  process_leds fs (name :: rest) data w
  = if candidate name
    then (r <- process_led fs data name ;;
          if negb (fst r =? 0) then ret (Some 1, snd r)
          else process_leds fs rest (snd r)) w
    else process_leds fs rest data w.
Proof.
  cbn [process_leds]. unfold candidate.
  destruct (String.eqb name "." || String.eqb name ".."); reflexivity.
Qed.

Lemma process_leds_usable lednames : forall data w pre k,
  forallb (usable fs) (filter candidate lednames) = true ->
  entries data = (pre ++ repeat zero_entry k)%list ->
  Z.of_nat (List.length pre) = entries_count data ->
  entries_count data + Z.of_nat (List.length (filter candidate lednames)) <= 32 ->
  (List.length (filter candidate lednames) <= k)%nat ->
  process_leds fs lednames data w
  = Returned
      (None,
       mkData (pre ++ mapped fs lednames
                 ++ repeat zero_entry
                      (k - List.length (filter candidate lednames)))%list
         (entries_count data
          + Z.of_nat (List.length (filter candidate lednames)))
         (entries_found data
          + Z.of_nat (List.length (filter candidate lednames)))) w.
Proof.
  induction lednames as [ | name rest IH]; intros data w pre k Huse Hent Hlen Hfit Hk.
  - cbn [process_leds filter mapped map List.length app] in *.
    rewrite Nat.sub_0_r, <- Hent, !Z.add_0_r. destruct data; reflexivity.
  - rewrite process_leds_cons. unfold mapped in *. cbn [filter] in *.
    destruct (candidate name).
    + cbn [forallb List.length map] in *.
      apply andb_true_iff in Huse. destruct Huse as [Hname Hrest].
      destruct k as [ | k]; [ lia | ]. cbn [repeat] in Hent.
      unfold bind.
      rewrite (process_led_usable data name w pre (repeat zero_entry k)
                 Hname Hent Hlen ltac:(lia)).
      cbn [fst snd]. rewrite Z.eqb_refl. cbn [negb].
      rewrite (IH _ w (pre ++ [mkEntry (open_wronly fs (name ++ "/brightness"))
                                 (scanned fs name)])%list k Hrest).
      * cbn [entries_count entries_found]. rewrite <- !app_assoc.
        cbn [app Nat.sub]. do 3 f_equal; lia.
      * cbn [entries]. rewrite <- app_assoc. reflexivity.
      * cbn [entries_count]. rewrite length_app. cbn [List.length]. lia.
      * cbn [entries_count]. lia.
      * lia.
    + apply IH; assumption.
Qed.

(** X22.  With at most 32 candidates, all usable, and a bound socket,
    the setup maps the candidates in the order of the directory, [.] and
    [..] left out: LED [k] is the [k]-th candidate, with the descriptor
    [open] gave and the maximum brightness read.  [main] prints no
    warning, announces the number served and runs the server loop on
    that mapping. *)
Theorem sysfs_setup_maps_in_order e sock arrivals lednames w :
  chdir_status fs = 0 ->
  scandir_names fs = Some lednames ->
  calloc_ok fs = true ->
  forallb (usable fs) (filter candidate lednames) = true ->
  (List.length (filter candidate lednames) <= 32)%nat ->
  sock <> -1 ->
  let served := Z.of_nat (List.length (filter candidate lednames)) in
  let data :=
    mkData (mapped fs lednames
              ++ repeat zero_entry
                   (List.length lednames
                    - List.length (filter candidate lednames)))%list
      served served in
  main e fs sock arrivals w
  = (emit (EvStdout (serving data)) ;;;
     serve e handle_message arrivals data ;;;
     ret None) w.
Proof.
  intros Hdir Hscan Halloc Huse Hmax Hsock served data.
  unfold main. rewrite Hdir, Hscan, Halloc. cbn [negb Z.eqb].
  unfold bind at 1.
  rewrite (process_leds_usable lednames
             (mkData (repeat zero_entry (List.length lednames)) 0 0) w []
             (List.length lednames) Huse eq_refl eq_refl);
    [ | cbn [entries_count]; lia | apply filter_length_le ].
  cbn [fst snd app entries_count entries_found Z.add].
  fold served. fold data.
  rewrite Z.ltb_irrefl. unfold start_ledp_server.
  destruct (Z.eqb_spec sock (-1)); [ contradiction | ].
  unfold bind, emit, ret.
  match goal with
  | |- context [serve e handle_message arrivals data ?v] =>
      destruct (serve e handle_message arrivals data v)
  end; reflexivity.
Qed.

Lemma process_leds_app xs : forall ys data w,
  process_leds fs (xs ++ ys)%list data w
  = match process_leds fs xs data w with
    | Returned (None, data') w' => process_leds fs ys data' w'
    | other => other
    end.
Proof.
  induction xs as [ | name rest IH]; intros ys data w.
  - reflexivity.
  - cbn [app process_leds].
    destruct (String.eqb name "." || String.eqb name "..").
    + apply IH.
    + unfold bind.
      destruct (process_led fs data name w) as [[status d1] w1 | w1 | w1];
        try reflexivity.
      cbn [fst snd]. destruct (negb (status =? 0)); [ reflexivity | ].
      apply IH.
Qed.

Lemma process_led_unusable data name w :
  usable fs name = false ->
  entries_count data < 32 ->
  exists data',
    process_led fs data name w
    = Returned (1, data')
        (mkWorld (returns w) (EvStderr (setup_error fs name) :: trace w)).
Proof.
  intros Huse Hfree. unfold process_led, usable, setup_error in *.
  destruct (Z.leb_spec 32 (entries_count data)); [ lia | ].
  destruct (scan_file fs (name ++ "/max_brightness")) as [[v | ] | ].
  - destruct (Z.eqb_spec (open_wronly fs (name ++ "/brightness")) (-1));
      [ | discriminate ].
    eexists. reflexivity.
  - eexists. reflexivity.
  - eexists. reflexivity.
Qed.

(** X23.  The first candidate whose [max_brightness] does not open or
    scan, or whose [brightness] does not open, ends [main] with status 1
    and the message for that failure: nothing is announced or served. *)
Theorem sysfs_setup_failure_is_fatal e sock arrivals before name after w :
  chdir_status fs = 0 ->
  scandir_names fs = Some (before ++ name :: after)%list ->
  calloc_ok fs = true ->
  forallb (usable fs) (filter candidate before) = true ->
  (List.length (filter candidate before) < 32)%nat ->
  candidate name = true ->
  usable fs name = false ->
  main e fs sock arrivals w
  = Returned (Some 1)
      (mkWorld (returns w) (EvStderr (setup_error fs name) :: trace w)).
Proof.
  intros Hdir Hscan Halloc Huse Hmax Hcand Hbad.
  unfold main. rewrite Hdir, Hscan, Halloc. cbn [negb Z.eqb].
  unfold bind at 1. rewrite process_leds_app.
  rewrite (process_leds_usable before
             (mkData (repeat zero_entry (List.length (before ++ name :: after)))
                0 0) w [] (List.length (before ++ name :: after)) Huse
             eq_refl eq_refl);
    [ | cbn [entries_count]; lia
      | rewrite length_app; pose proof (filter_length_le candidate before); lia ].
  rewrite process_leds_cons, Hcand.
  unfold bind at 1.
  match goal with
  | |- context [process_led fs ?d name w] =>
      destruct (process_led_unusable d name w Hbad) as [data' ->]
  end; [ cbn [entries_count]; lia | ].
  reflexivity.
Qed.

Lemma process_led_invariant data name w :
  exists status data' w',
    process_led fs data name w = Returned (status, data') w'
    /\ List.length (entries data') = List.length (entries data)
    /\ entries_found data' = entries_found data + 1
    /\ entries_count data'
       = (if 32 <=? entries_count data then entries_count data
          else entries_count data + 1)
    /\ (status = 0 -> entries_count data < 32)
    /\ returns w' = returns w.
Proof.
  unfold process_led.
  destruct (Z.leb_spec 32 (entries_count data)).
  - do 3 eexists. split; [ reflexivity | ]. cbn. repeat split. discriminate.
  - destruct (scan_file fs (name ++ "/max_brightness")) as [[v | ] | ].
    + destruct (open_wronly fs (name ++ "/brightness") =? -1);
        do 3 eexists; (split; [ reflexivity | ]); cbn;
        rewrite ?set_entry_length; repeat split; auto.
    + do 3 eexists. split; [ reflexivity | ]. cbn. repeat split; auto.
    + do 3 eexists. split; [ reflexivity | ]. cbn. repeat split; auto.
Qed.

Lemma process_leds_invariant lednames : forall data w,
  0 <= entries_count data <= 32 ->
  entries_count data <= entries_found data ->
  exists r data' w',
    process_leds fs lednames data w = Returned (r, data') w'
    /\ List.length (entries data') = List.length (entries data)
    /\ entries_count data <= entries_count data' <= 32
    /\ entries_count data'
       <= entries_count data
          + Z.of_nat (List.length (filter candidate lednames))
    /\ entries_count data' <= entries_found data'
    /\ entries_found data'
       <= entries_found data
          + Z.of_nat (List.length (filter candidate lednames))
    /\ returns w' = returns w.
Proof.
  induction lednames as [ | name rest IH]; intros data w Hc Hf.
  - do 3 eexists. split; [ reflexivity | ]. cbn. repeat split; lia.
  - rewrite process_leds_cons. cbn [filter].
    destruct (candidate name); [ | apply IH; assumption ].
    + destruct (process_led_invariant data name w)
        as [status [d1 [w1 [Hrun [Hl [Hfound [Hcount [Hst Hret]]]]]]]].
      unfold bind. rewrite Hrun. cbn [fst snd List.length].
      assert (Hc1 : entries_count data <= entries_count d1 <= 32
                    /\ entries_count d1 <= entries_count data + 1)
        by (rewrite Hcount; destruct (Z.leb_spec 32 (entries_count data)); lia).
      destruct (Z.eqb_spec status 0) as [Hs | Hs]; cbn [negb].
      * destruct (IH d1 w1 ltac:(lia) ltac:(lia))
          as [r [d2 [w2 [Hrest [Hl2 [Hc2 [Hm2 [Hcf2 [Hf2 Hret2]]]]]]]]].
        exists r, d2, w2. split; [ exact Hrest | ].
        repeat split; try lia; congruence.
      * exists (Some 1), d1, w1. split; [ reflexivity | ].
        repeat split; try lia; congruence.
Qed.

(** X24.  Whatever the files do, the loop of [main] returns without a
    single [write], the array keeps the size [calloc] gave it, and the
    number of entries in use is at most 32, at most the number of
    candidates found and within the array. *)
Theorem sysfs_setup_stays_in_array lednames w :
  exists r data' w',
    process_leds fs lednames
      (mkData (repeat zero_entry (List.length lednames)) 0 0) w
    = Returned (r, data') w'
    /\ List.length (entries data') = List.length lednames
    /\ 0 <= entries_count data' <= 32
    /\ entries_count data' <= Z.of_nat (List.length (entries data'))
    /\ entries_count data' <= entries_found data'
    /\ entries_found data' <= Z.of_nat (List.length (filter candidate lednames))
    /\ returns w' = returns w.
Proof.
  destruct (process_leds_invariant lednames
              (mkData (repeat zero_entry (List.length lednames)) 0 0) w
              ltac:(cbn; lia) ltac:(cbn; lia))
    as [r [d [w' [Hrun [Hl [Hc [Hm [Hcf [Hf Hret]]]]]]]]].
  cbn [entries entries_count entries_found] in *. rewrite repeat_length in Hl.
  pose proof (filter_length_le candidate lednames).
  exists r, d, w'. split; [ exact Hrun | ]. repeat split; try lia; assumption.
Qed.

End SysfsSetupMore.

(* ------------------------------------------------------------------ *)
(** ** The sysfs server: examples *)

Lemma board_well_formed : SysfsLeds.well_formed SysfsLeds.board.
Proof.
  unfold SysfsLeds.well_formed, SysfsLeds.board. cbn.
  split; [ lia | ]. split; [ lia | ].
  repeat constructor; cbn; intuition discriminate.
Qed.

Lemma sysfs_unaddressed_led_never_written_witness :
  last_write 5
    (trace
       (world_of
          (Server.serve Server.LittleEndian SysfsLeds.handle_message
             [Server.Datagram [x01; x00; x00; x00; x01; x00; x00; x00; x01]]
             SysfsLeds.board (mkWorld [0] []))))
  = None.
Proof.
  refine (sysfs_unaddressed_led_never_written Server.LittleEndian
            SysfsLeds.board
            [Server.Datagram [x01; x00; x00; x00; x01; x00; x00; x00; x01]]
            1 (mkWorld [0] []) board_well_formed _ _).
  - cbn. lia.
  - intros packet H. vm_compute in H. destruct H as [<- | []]. reflexivity.
Defined.

Lemma sysfs_writes_in_led_order_witness :
  SysfsLeds.handle_message SysfsLeds.board (Server.mkPacket 1 7 1)
    (mkWorld [] [])
  = Returned SysfsLeds.board
      (mkWorld [] [EvWrite 5 (decimal 0 ++ nl); EvWrite 4 (decimal 255 ++ nl)]).
Proof.
  refine (sysfs_writes_in_led_order SysfsLeds.board (Server.mkPacket 1 7 1) [] _).
  cbn. lia.
Defined.

Lemma sysfs_unmapped_and_unmasked_bits_ignored_witness :
  SysfsLeds.handle_message SysfsLeds.board (Server.mkPacket 1 5 6)
    (mkWorld [] [])
  = SysfsLeds.handle_message SysfsLeds.board (Server.mkPacket 1 1 0)
      (mkWorld [] []).
Proof.
  apply sysfs_unmapped_and_unmasked_bits_ignored.
  - cbn. lia.
  - intros k Hk. cbn in Hk.
    assert (Hc : k = 0 \/ k = 1) by lia. destruct Hc as [-> | ->]; reflexivity.
  - intros k Hk Hm. cbn in Hk.
    assert (Hc : k = 0 \/ k = 1) by lia.
    destruct Hc as [-> | ->]; [ reflexivity | discriminate Hm ].
Defined.

Lemma sysfs_failed_write_aborts_witness :
  SysfsLeds.handle_message SysfsLeds.board (Server.mkPacket 1 3 3)
    (mkWorld [2] [])
  = Aborted (mkWorld [] [EvWrite 4 "25"]).
Proof.
  refine (sysfs_failed_write_aborts SysfsLeds.board (Server.mkPacket 1 3 3)
            0 2 [] [] _ _ _ eq_refl _).
  - cbn. lia.
  - cbn. lia.
  - intros j Hj. lia.
  - cbn. discriminate.
Defined.

Lemma sysfs_serve_last_addressed_witness :
  exists tr',
    Server.serve Server.BigEndian SysfsLeds.handle_message
      [Server.Datagram [x01; x00; x00; x00; x01; x00; x00; x00; x01];
       Server.Datagram [x01; x00; x00; x00; x01; x00; x00; x00; x00]]
      SysfsLeds.board (mkWorld [] [])
    = Returned SysfsLeds.board (mkWorld [] tr')
    /\ last_write 4 tr' = Some (decimal 0 ++ nl).
Proof.
  destruct (sysfs_serve_last_addressed Server.BigEndian SysfsLeds.board
              [Server.Datagram [x01; x00; x00; x00; x01; x00; x00; x00; x01];
               Server.Datagram [x01; x00; x00; x00; x01; x00; x00; x00; x00]]
              [] board_well_formed)
    as [tr' [Hrun Hlast]].
  exists tr'. split; [ exact Hrun | ].
  exact (Hlast 0 (conj (Z.le_refl 0) eq_refl)).
Defined.

Lemma sysfs_setup_maps_in_order_witness :
  SysfsLeds.main Server.LittleEndian SysfsLeds.small 3 [] (mkWorld [] [])
  = Returned None
      (mkWorld []
         [EvStdout
            (SysfsLeds.serving
               (SysfsLeds.mkData
                  [SysfsLeds.mkEntry 3 255; SysfsLeds.mkEntry 4 255;
                   SysfsLeds.mkEntry 5 255; SysfsLeds.zero_entry;
                   SysfsLeds.zero_entry] 3 3))]).
Proof.
  rewrite (sysfs_setup_maps_in_order SysfsLeds.small Server.LittleEndian 3 []
             ("." :: ".." :: SysfsLeds.led_names 3) (mkWorld [] [])
             eq_refl eq_refl eq_refl eq_refl).
  - reflexivity.
  - cbn. lia.
  - discriminate.
Defined.

Lemma sysfs_setup_failure_is_fatal_witness :
  SysfsLeds.main Server.LittleEndian SysfsLeds.broken 3 [] (mkWorld [] [])
  = Returned (Some 1)
      (mkWorld []
         [EvStderr
            ("Couldn't open led01/max_brightness for reading" ++ nl)]).
Proof.
  refine (sysfs_setup_failure_is_fatal SysfsLeds.broken Server.LittleEndian 3 []
            ["."; ".."; "led00"] "led01" ["led02"] (mkWorld [] [])
            eq_refl eq_refl eq_refl eq_refl _ eq_refl eq_refl).
  cbn. lia.
Defined.
